(** * BucketViewer S3 client: the explorer's listing, paths, ordering and
      type lookup, and the settings conversions

    The development follows the TypeScript sources:
    - [services/s3Service.ts]: [S3Service.listObjects], [getFileIcon],
      [getContentType];
    - [components/FileExplorer.tsx]: [loadObjects], [convertToFileItems],
      the breadcrumbs, [handleFileClick] and [sortedFiles];
    - [services/settingsService.ts]: [convertFromRust] / [convertToRust].

    JavaScript strings are modelled as [string]; the methods the sources
    call on them are defined in [Module Js] with the behaviour of the
    language on single-character separators. *)

From Stdlib Require Import List String Ascii Bool Arith ZArith Lia.
From Stdlib Require Import Permutation DecimalString DecimalNat.
From Stdlib Require OrderedTypeEx.
Import ListNotations.
Open Scope string_scope.

(* ===================================================================== *)
(** ** JavaScript string and array primitives used by the sources *)
(* ===================================================================== *)

Module Js.

(** Truthiness of a string value: only the empty string is falsy. *)
Definition truthy (s : string) : bool :=
  match s with
  | EmptyString => false
  | String _ _ => true
  end.

(** Truthiness of an optional string ([undefined] is falsy). *)
Definition truthy_opt (o : option string) : bool :=
  match o with
  | Some s => truthy s
  | None => false
  end.

(** [a || b] on optional strings with a string default. *)
Definition or_else (o : option string) (d : string) : string :=
  match o with
  | Some s => if truthy s then s else d
  | None => d
  end.

(** [s.startsWith(p)] *)
Fixpoint startsWith (s p : string) : bool :=
  match p with
  | EmptyString => true
  | String b p' =>
      match s with
      | EmptyString => false
      | String a s' => Ascii.eqb a b && startsWith s' p'
      end
  end.

(** [s.substring(n)]: the characters from index [n] on. *)
Fixpoint substring_from (n : nat) (s : string) : string :=
  match n, s with
  | O, _ => s
  | S _, EmptyString => EmptyString
  | S k, String _ r => substring_from k r
  end.

(** [s.endsWith(q)] *)
Definition endsWith (s q : string) : bool :=
  (String.length q <=? String.length s)%nat
  && String.eqb (substring_from (String.length s - String.length q) s) q.

(** [s.includes(c)] for a one-character needle. *)
Fixpoint includes (c : ascii) (s : string) : bool :=
  match s with
  | EmptyString => false
  | String a r => Ascii.eqb a c || includes c r
  end.

(** [s.split(c)] for a one-character separator: one piece more than there
    are separators, so the result is never empty. *)
Fixpoint split (sep : ascii) (s : string) : list string :=
  match s with
  | EmptyString => [EmptyString]
  | String a r =>
      if Ascii.eqb a sep then EmptyString :: split sep r
      else match split sep r with
           | [] => [String a EmptyString]
           | h :: t => String a h :: t
           end
  end.

(** [arr.pop()]: the last element, [undefined] on the empty array. *)
Fixpoint pop (l : list string) : option string :=
  match l with
  | [] => None
  | [x] => Some x
  | _ :: r => pop r
  end.

(** [arr[0]] *)
Definition first (l : list string) : option string := hd_error l.

(** [arr.filter(Boolean)] on an array of strings. *)
Definition filter_Boolean (l : list string) : list string :=
  filter truthy l.

(** [c.toLowerCase()] on one character: the letters A-Z are mapped to a-z.
    The lookup tables of the sources have ASCII keys only. *)
Definition lower_ascii (c : ascii) : ascii :=
  let n := nat_of_ascii c in
  if ((65 <=? n) && (n <=? 90))%nat then ascii_of_nat (n + 32) else c.

Fixpoint toLowerCase (s : string) : string :=
  match s with
  | EmptyString => EmptyString
  | String a r => String (lower_ascii a) (toLowerCase r)
  end.

(** [s.includes(needle)] for a string needle. *)
Fixpoint includes_string (needle s : string) : bool :=
  startsWith s needle
  || match s with
     | EmptyString => false
     | String _ r => includes_string needle r
     end.

(** [arr.sort(compareFn)]. The language requires the sort to be stable and,
    for a consistent comparator, ordered by it; it is modelled as a stable
    insertion sort, in which an element moves past exactly those it
    compares greater than. For a comparator that is not consistent the
    language leaves the order to the implementation, and the model stands
    for one implementation. *)
Fixpoint insert {A : Type} (compareFn : A -> A -> Z) (x : A)
    (sorted : list A) : list A :=
  match sorted with
  | [] => [x]
  | y :: r =>
      if (0 <? compareFn x y)%Z then y :: insert compareFn x r
      else x :: sorted
  end.

Definition sort {A : Type} (compareFn : A -> A -> Z) (l : list A) : list A :=
  fold_right (insert compareFn) [] l.

(** [arr.includes(x)] on an array of strings. *)
Definition array_includes (arr : list string) (x : string) : bool :=
  existsb (String.eqb x) arr.

(** Template rendering of a non-negative array index. *)
Definition string_of_index (n : nat) : string :=
  NilZero.string_of_uint (Nat.to_uint n).

End Js.

Definition slash : ascii := "/"%char.
Definition dot : ascii := "."%char.

(* ===================================================================== *)
(** ** Settings records and their conversions
       ([types/settings.ts], [services/settingsService.ts]) *)
(* ===================================================================== *)

Module Settings.

Section WithNumber.

(** The conversions only copy numeric fields, so the carrier of the
    JavaScript [number] type is left open. *)
Variable number : Type.

Record GeneralSettings := {
  autoRefresh : bool;
  refreshInterval : number;
  defaultDownloadLocation : string;
  confirmBeforeDelete : bool;
  showFilePreview : bool }.

Record ConnectionConfig := {
  name : string;
  serviceType : string;
  endpoint : string;
  accessKey : string;
  secretKey : string;
  region : string;
  isDefault : bool }.

Record AppearanceSettings := {
  theme : string;
  fontSize : number;
  showHiddenFiles : bool;
  showFileExtensions : bool }.

Record LayoutSettings := {
  defaultView : string;
  sortBy : string;
  sortDirection : string }.

Record PermissionsSettings := {
  allowAnonymousUsageStats : bool;
  enableCaching : bool }.

Record AppSettings := {
  version : string;
  general : GeneralSettings;
  connections : list ConnectionConfig;
  appearance : AppearanceSettings;
  layout : LayoutSettings;
  permissions : PermissionsSettings }.

Record RustGeneralSettings := {
  auto_refresh : bool;
  refresh_interval : number;
  default_download_location : string;
  confirm_before_delete : bool;
  show_file_preview : bool }.

(** Field names shared with the frontend records carry a [rust_] prefix. *)
Record RustConnectionConfig := {
  rust_name : string;
  service_type : string;
  rust_endpoint : string;
  access_key : string;
  secret_key : string;
  rust_region : string;
  is_default : bool }.

Record RustAppearanceSettings := {
  rust_theme : string;
  font_size : number;
  show_hidden_files : bool;
  show_file_extensions : bool }.

Record RustLayoutSettings := {
  default_view : string;
  sort_by : string;
  sort_direction : string }.

Record RustPermissionsSettings := {
  allow_anonymous_usage_stats : bool;
  enable_caching : bool }.

Record RustAppSettings := {
  rust_version : string;
  rust_general : RustGeneralSettings;
  rust_connections : list RustConnectionConfig;
  rust_appearance : RustAppearanceSettings;
  rust_layout : RustLayoutSettings;
  rust_permissions : RustPermissionsSettings }.

End WithNumber.

Arguments autoRefresh {number}.
Arguments refreshInterval {number}.
Arguments defaultDownloadLocation {number}.
Arguments confirmBeforeDelete {number}.
Arguments showFilePreview {number}.
Arguments theme {number}.
Arguments fontSize {number}.
Arguments showHiddenFiles {number}.
Arguments showFileExtensions {number}.
Arguments version {number}.
Arguments general {number}.
Arguments connections {number}.
Arguments appearance {number}.
Arguments layout {number}.
Arguments permissions {number}.
Arguments auto_refresh {number}.
Arguments refresh_interval {number}.
Arguments default_download_location {number}.
Arguments confirm_before_delete {number}.
Arguments show_file_preview {number}.
Arguments rust_theme {number}.
Arguments font_size {number}.
Arguments show_hidden_files {number}.
Arguments show_file_extensions {number}.
Arguments rust_version {number}.
Arguments rust_general {number}.
Arguments rust_connections {number}.
Arguments rust_appearance {number}.
Arguments rust_layout {number}.
Arguments rust_permissions {number}.

(** [convertFromRust]: snake_case (backend) to camelCase (frontend). *)
Module convertFromRust.

Definition general {number} (rust : RustGeneralSettings number)
  : GeneralSettings number :=
  {| autoRefresh := auto_refresh rust;
     refreshInterval := refresh_interval rust;
     defaultDownloadLocation := default_download_location rust;
     confirmBeforeDelete := confirm_before_delete rust;
     showFilePreview := show_file_preview rust |}.

Definition connection (rust : RustConnectionConfig) : ConnectionConfig :=
  {| name := rust_name rust;
     serviceType := service_type rust;
     endpoint := rust_endpoint rust;
     accessKey := access_key rust;
     secretKey := secret_key rust;
     region := rust_region rust;
     isDefault := is_default rust |}.

Definition appearance {number} (rust : RustAppearanceSettings number)
  : AppearanceSettings number :=
  {| theme := rust_theme rust;
     fontSize := font_size rust;
     showHiddenFiles := show_hidden_files rust;
     showFileExtensions := show_file_extensions rust |}.

Definition layout (rust : RustLayoutSettings) : LayoutSettings :=
  {| defaultView := default_view rust;
     sortBy := sort_by rust;
     sortDirection := sort_direction rust |}.

Definition permissions (rust : RustPermissionsSettings)
  : PermissionsSettings :=
  {| allowAnonymousUsageStats := allow_anonymous_usage_stats rust;
     enableCaching := enable_caching rust |}.

Definition settings {number} (rust : RustAppSettings number)
  : AppSettings number :=
  {| version := rust_version rust;
     Settings.general := general (rust_general rust);
     connections := map connection (rust_connections rust);
     Settings.appearance := appearance (rust_appearance rust);
     Settings.layout := layout (rust_layout rust);
     Settings.permissions := permissions (rust_permissions rust) |}.

End convertFromRust.

(** [convertToRust]: camelCase (frontend) to snake_case (backend). *)
Module convertToRust.

Definition general {number} (frontend : GeneralSettings number)
  : RustGeneralSettings number :=
  {| auto_refresh := autoRefresh frontend;
     refresh_interval := refreshInterval frontend;
     default_download_location := defaultDownloadLocation frontend;
     confirm_before_delete := confirmBeforeDelete frontend;
     show_file_preview := showFilePreview frontend |}.

Definition connection (frontend : ConnectionConfig) : RustConnectionConfig :=
  {| rust_name := name frontend;
     service_type := serviceType frontend;
     rust_endpoint := endpoint frontend;
     access_key := accessKey frontend;
     secret_key := secretKey frontend;
     rust_region := region frontend;
     is_default := isDefault frontend |}.

Definition appearance {number} (frontend : AppearanceSettings number)
  : RustAppearanceSettings number :=
  {| rust_theme := theme frontend;
     font_size := fontSize frontend;
     show_hidden_files := showHiddenFiles frontend;
     show_file_extensions := showFileExtensions frontend |}.

Definition layout (frontend : LayoutSettings) : RustLayoutSettings :=
  {| default_view := defaultView frontend;
     sort_by := sortBy frontend;
     sort_direction := sortDirection frontend |}.

Definition permissions (frontend : PermissionsSettings)
  : RustPermissionsSettings :=
  {| allow_anonymous_usage_stats := allowAnonymousUsageStats frontend;
     enable_caching := enableCaching frontend |}.

Definition settings {number} (frontend : AppSettings number)
  : RustAppSettings number :=
  {| rust_version := version frontend;
     rust_general := general (Settings.general frontend);
     rust_connections := map connection (connections frontend);
     rust_appearance := appearance (Settings.appearance frontend);
     rust_layout := layout (Settings.layout frontend);
     rust_permissions := permissions (Settings.permissions frontend) |}.

End convertToRust.

End Settings.

(* ===================================================================== *)
(** ** [S3Service] ([services/s3Service.ts]) *)
(* ===================================================================== *)

Module S3Service.

Import Settings.

Record ObjectInfo := {
  key : string;
  size : option N;
  last_modified : option string;
  etag : option string;
  storage_class : option string;
  content_type : option string;
  is_folder : bool }.

Record ListObjectsResponse := {
  objects : list ObjectInfo;
  common_prefixes : list string;
  is_truncated : bool;
  next_continuation_token : option string;
  prefix : option string }.

(** The arguments of the backend command [list_s3_objects]; [None] is the
    [null] the service sends for a falsy argument. *)
Record ListRequest := {
  connectionConfig : RustConnectionConfig;
  bucket : string;
  req_prefix : option string;
  delimiter : option string;
  maxKeys : option N;
  continuationToken : option string }.

(** The backend behind [invoke]: it answers a request with a page or
    rejects it with a message. *)
Definition Backend : Type := ListRequest -> string + ListObjectsResponse.

(** Calls of the service run against the backend and record every request
    they send; a rejected promise is the left summand. *)
Definition Call (A : Type) : Type :=
  list ListRequest -> (string + A) * list ListRequest.

Definition ret {A} (a : A) : Call A := fun log => (inr a, log).

Definition throw {A} (msg : string) : Call A := fun log => (inl msg, log).

Definition bind {A B} (c : Call A) (k : A -> Call B) : Call B :=
  fun log =>
    match c log with
    | (inr a, log') => k a log'
    | (inl msg, log') => (inl msg, log')
    end.

(** [try { ... } catch (err) { handler }] *)
Definition try_catch {A} (c : Call A) (handler : string -> Call A) : Call A :=
  fun log =>
    match c log with
    | (inr a, log') => (inr a, log')
    | (inl msg, log') => handler msg log'
    end.

(** [await invoke('list_s3_objects', request)] *)
Definition invoke (backend : Backend) (request : ListRequest)
  : Call ListObjectsResponse :=
  fun log => (backend request, (log ++ [request])%list).

(** [x || null] on optional arguments. *)
Definition or_null (o : option string) : option string :=
  match o with
  | Some s => if Js.truthy s then Some s else None
  | None => None
  end.

Definition or_null_number (o : option N) : option N :=
  match o with
  | Some n => if N.eqb n 0 then None else Some n
  | None => None
  end.

(** The prefix normalisation at the head of [listObjects]: one leading
    slash is removed, and a non-empty prefix is made to end with a slash. *)
Definition normalizePrefix (prefix : option string) : option string :=
  match prefix with
  | Some p =>
      if Js.truthy p then
        let p1 := if Js.startsWith p "/" then Js.substring_from 1 p else p in
        let p2 := if Js.truthy p1 && negb (Js.endsWith p1 "/")
                  then p1 ++ "/" else p1 in
        Some p2
      else Some p
  | None => None
  end.

(** [S3Service.listObjects(connection, bucket, prefix, delimiter, maxKeys,
    continuationToken)] *)
Definition listObjects (backend : Backend) (connection : ConnectionConfig)
    (bucket : string) (prefix delimiter : option string) (maxKeys : option N)
    (continuationToken : option string) : Call ListObjectsResponse :=
  let normalizedPrefix := normalizePrefix prefix in
  try_catch
    (invoke backend
       {| connectionConfig := convertToRust.connection connection;
          S3Service.bucket := bucket;
          req_prefix := or_null normalizedPrefix;
          S3Service.delimiter := or_null delimiter;
          S3Service.maxKeys := or_null_number maxKeys;
          S3Service.continuationToken := or_null continuationToken |})
    (fun error => throw error).

(** A value a property lookup on the [mimeTypes] object literal can give:
    one of its own string values, or a member that every object literal
    inherits from [Object.prototype] (a function, or the prototype object
    itself for [__proto__]). *)
Inductive JsValue : Type :=
| JsString (s : string)
| JsInherited (name : string).

(** The object literal of [getContentType], in declaration order. *)
Definition mimeTypes : list (string * string) :=
  [ ("jpg", "image/jpeg");
    ("jpeg", "image/jpeg");
    ("png", "image/png");
    ("gif", "image/gif");
    ("pdf", "application/pdf");
    ("txt", "text/plain");
    ("html", "text/html");
    ("css", "text/css");
    ("js", "application/javascript");
    ("json", "application/json");
    ("xml", "application/xml");
    ("zip", "application/zip");
    ("mp4", "video/mp4");
    ("mp3", "audio/mpeg") ].

(** The property names of [Object.prototype]; all of them hold truthy
    values. *)
Definition objectPrototypeNames : list string :=
  [ "constructor"; "__proto__"; "hasOwnProperty"; "isPrototypeOf";
    "propertyIsEnumerable"; "toLocaleString"; "toString"; "valueOf";
    "__defineGetter__"; "__defineSetter__"; "__lookupGetter__";
    "__lookupSetter__" ].

Fixpoint own_property (table : list (string * string)) (key : string)
  : option string :=
  match table with
  | [] => None
  | (k, v) :: r => if String.eqb k key then Some v else own_property r key
  end.

Definition inherited (key : string) : bool :=
  existsb (String.eqb key) objectPrototypeNames.

(** [table[key]]: own properties first, then the prototype chain;
    [None] is [undefined]. *)
Definition get_property (table : list (string * string)) (key : string)
  : option JsValue :=
  match own_property table key with
  | Some v => Some (JsString v)
  | None => if inherited key then Some (JsInherited key) else None
  end.

Definition value_truthy (v : JsValue) : bool :=
  match v with
  | JsString s => Js.truthy s
  | JsInherited _ => true
  end.

(** [name.split('.').pop()?.toLowerCase()] *)
Definition extension (filename : string) : option string :=
  option_map Js.toLowerCase (Js.pop (Js.split dot filename)).

Definition defaultContentType : string := "application/octet-stream".

(** [getContentType(filename)]:
    [mimeTypes[extension || ''] || 'application/octet-stream'] *)
Definition getContentType (filename : string) : JsValue :=
  match get_property mimeTypes (Js.or_else (extension filename) "") with
  | Some v => if value_truthy v then v else JsString defaultContentType
  | None => JsString defaultContentType
  end.

(** The icons of [getFileIcon], as the source file spells them. *)
Definition folderIcon : string := "üìÅ".

Definition defaultIcon : string := "üìÑ".

Definition iconCases : list (list string * string) :=
  [ (["jpg"; "jpeg"; "png"; "gif"; "bmp"; "svg"], "üñºÔ∏è");
    (["pdf"], "üìÑ");
    (["doc"; "docx"], "üìù");
    (["xls"; "xlsx"], "üìä");
    (["zip"; "rar"; "7z"], "üóúÔ∏è");
    (["mp4"; "avi"; "mov"; "wmv"], "üé¨");
    (["mp3"; "wav"; "flac"], "üéµ");
    (["json"; "xml"; "yaml"; "yml"], "‚öôÔ∏è") ].

(** [switch (extension) { case ...: return icon; ... default: ... }] *)
Fixpoint switch (cases : list (list string * string)) (default : string)
    (scrutinee : option string) : string :=
  match cases with
  | [] => default
  | (labels, result) :: r =>
      match scrutinee with
      | Some e =>
          if existsb (String.eqb e) labels then result
          else switch r default scrutinee
      | None => default
      end
  end.

(** [getFileIcon(objectInfo)] *)
Definition getFileIcon (objectInfo : ObjectInfo) : string :=
  if is_folder objectInfo then folderIcon
  else switch iconCases defaultIcon (extension (key objectInfo)).

(** [isImage(objectInfo)], [isVideo(objectInfo)], [isAudio(objectInfo)] *)
Definition isImage (objectInfo : ObjectInfo) : bool :=
  Js.array_includes ["jpg"; "jpeg"; "png"; "gif"; "bmp"; "svg"; "webp"]
    (Js.or_else (extension (key objectInfo)) "").

Definition isVideo (objectInfo : ObjectInfo) : bool :=
  Js.array_includes ["mp4"; "avi"; "mov"; "wmv"; "flv"; "webm"]
    (Js.or_else (extension (key objectInfo)) "").

Definition isAudio (objectInfo : ObjectInfo) : bool :=
  Js.array_includes ["mp3"; "wav"; "flac"; "aac"; "ogg"]
    (Js.or_else (extension (key objectInfo)) "").

(** The two lookups as requests to the service. [S3Service] has static
    methods only and no fields, and each call builds its table anew, so a
    sequence of requests is answered one by one. *)
Inductive Request : Type :=
| GetContentType (filename : string)
| GetFileIcon (objectInfo : ObjectInfo).

Inductive Answer : Type :=
| ContentType (value : JsValue)
| Icon (icon : string).

Definition perform (r : Request) : Answer :=
  match r with
  | GetContentType filename => ContentType (getContentType filename)
  | GetFileIcon objectInfo => Icon (getFileIcon objectInfo)
  end.

Definition session (requests : list Request) : list Answer :=
  map perform requests.

(** The same two methods with what a call can read and write made
    explicit. A realm holds the members of [Object.prototype], which every
    object literal inherits from and which any script may have extended,
    and the object literals created so far, oldest first. The class has no
    field, so a realm has nothing of [S3Service] itself. *)
Record Realm : Type := {
  objectPrototype : list (string * JsValue);
  heap : list (list (string * string))
}.

Definition Lookup (A : Type) : Type := Realm -> A * Realm.

(** Evaluating an object literal: a new object, after the ones that
    exist. *)
Definition allocate (literal : list (string * string)) : Lookup nat :=
  fun realm =>
    (List.length (heap realm),
     {| objectPrototype := objectPrototype realm;
        heap := (heap realm ++ [literal])%list |}).

Fixpoint prototype_property (members : list (string * JsValue))
    (key : string) : option JsValue :=
  match members with
  | [] => None
  | (k, v) :: r => if String.eqb k key then Some v else prototype_property r key
  end.

(** [object[key]] for the object at [reference]: its own properties
    first, then those of [Object.prototype] as the realm has them. *)
Definition get_property_in (realm : Realm) (reference : nat) (key : string)
  : option JsValue :=
  match nth_error (heap realm) reference with
  | Some properties =>
      match own_property properties key with
      | Some v => Some (JsString v)
      | None => prototype_property (objectPrototype realm) key
      end
  | None => None
  end.

(** [Object.prototype] as the language defines it. *)
Definition standardPrototype : list (string * JsValue) :=
  map (fun name => (name, JsInherited name)) objectPrototypeNames.

(** [getContentType(filename)]: the literal is evaluated in the call, and
    the lookup goes through the object it made. *)
Definition getContentTypeIn (filename : string) : Lookup JsValue :=
  fun realm =>
    let ext := extension filename in
    let (table, realm) := allocate mimeTypes realm in
    (match get_property_in realm table (Js.or_else ext "") with
     | Some v => if value_truthy v then v else JsString defaultContentType
     | None => JsString defaultContentType
     end, realm).

(** [getFileIcon(objectInfo)] evaluates no object literal and looks up no
    property of one. *)
Definition getFileIconIn (objectInfo : ObjectInfo) : Lookup string :=
  fun realm => (getFileIcon objectInfo, realm).

Definition performIn (r : Request) : Lookup Answer :=
  fun realm =>
    match r with
    | GetContentType filename =>
        let (value, realm) := getContentTypeIn filename realm in
        (ContentType value, realm)
    | GetFileIcon objectInfo =>
        let (icon, realm) := getFileIconIn objectInfo realm in
        (Icon icon, realm)
    end.

(** A sequence of calls, each in the realm the calls before it left. *)
Fixpoint sessionIn (requests : list Request) (realm : Realm) : list Answer :=
  match requests with
  | [] => []
  | r :: rest =>
      let (answer, realm) := performIn r realm in
      answer :: sessionIn rest realm
  end.

End S3Service.

(* ===================================================================== *)
(** ** [FileExplorer] ([components/FileExplorer.tsx]) *)
(* ===================================================================== *)

Module FileExplorer.

Import Settings S3Service.

Inductive ItemType : Type := file | folder.

Definition ItemType_eqb (a b : ItemType) : bool :=
  match a, b with
  | file, file | folder, folder => true
  | _, _ => false
  end.

Record FileItem := {
  id : string;
  name : string;
  type : ItemType;
  size : option string;
  lastModified : option string;
  contentType : option string }.

Record Breadcrumb := {
  crumb_name : string;
  crumb_path : string }.

(** The component state that [loadObjects] writes. *)
Record ExplorerState := {
  objects : list ObjectInfo;
  folders : list string;
  loading : bool;
  error : option string }.

Inductive SortField : Type := by_name | by_modified | by_size | by_type.

Inductive SortDirection : Type := asc | desc.

(** *** Listing *)

(** The prefix computed in [loadObjects] (and again in [handleRefresh])
    from the path shown in the UI. *)
Definition explorerPrefix (currentPath : string) : string :=
  if String.eqb currentPath "/" then ""
  else
    let prefix := Js.substring_from 1 currentPath in
    if negb (Js.endsWith prefix "/") then prefix ++ "/" else prefix.

(** The message shown for a failed listing. *)
Definition describeError (errorMessage : string) : string :=
  if Js.includes_string "Access denied" errorMessage
     || Js.includes_string "AccessDenied" errorMessage then
    "Access denied - Please check your S3 credentials and permissions"
  else if Js.includes_string "Invalid credentials" errorMessage
          || Js.includes_string "InvalidAccessKeyId" errorMessage then
    "Invalid S3 credentials - Please verify your access key and secret key"
  else if Js.includes_string "Network error" errorMessage
          || Js.includes_string "timeout" errorMessage then
    "Network connectivity issue - Please check your internet connection and endpoint URL"
  else if Js.includes_string "DNS resolution failed" errorMessage then
    "Cannot resolve S3 endpoint - Please verify the endpoint URL is correct"
  else errorMessage.

(** [settings.connections.find(conn => conn.isDefault)
     || settings.connections[0]] *)
Definition activeConnection (connections : list ConnectionConfig)
  : option ConnectionConfig :=
  match find isDefault connections with
  | Some c => Some c
  | None => hd_error connections
  end.

(** [loadObjects] of the effect that runs on every change of bucket, path
    or connections; [connections] is [settings?.connections]. *)
Definition loadObjects (backend : Backend) (bucketName : option string)
    (connections : option (list ConnectionConfig)) (currentPath : string)
    (st : ExplorerState) : Call ExplorerState :=
  match bucketName, connections with
  | Some bucket, Some ((_ :: _) as conns) =>
      if Js.truthy bucket then
        match activeConnection conns with
        | None => ret st
        | Some connection =>
            let st1 := {| objects := objects st; folders := folders st;
                          loading := true; error := None |} in
            let prefix := explorerPrefix currentPath in
            bind
              (try_catch
                 (bind
                    (listObjects backend connection bucket (Some prefix)
                       (Some "/") (Some 1000%N) None)
                    (fun response =>
                       ret {| objects := S3Service.objects response;
                              folders := common_prefixes response;
                              loading := loading st1;
                              error := error st1 |}))
                 (fun errorMessage =>
                    ret {| objects := objects st1; folders := folders st1;
                           loading := loading st1;
                           error := Some (describeError errorMessage) |}))
              (fun st2 =>
                 ret {| objects := objects st2; folders := folders st2;
                        loading := false; error := error st2 |})
        end
      else ret st
  | _, _ => ret st
  end.

(** The prefix that reaches the backend for a path of the UI ([null] and
    the empty prefix both list the bucket's root). *)
Definition storagePrefix (currentPath : string) : string :=
  match or_null (normalizePrefix (Some (explorerPrefix currentPath))) with
  | Some p => p
  | None => ""
  end.

(** *** Paths and breadcrumbs *)

(** [currentPath.split("/").filter(Boolean)] *)
Definition pathParts (currentPath : string) : list string :=
  Js.filter_Boolean (Js.split slash currentPath).

(** The breadcrumbs: the root entry, then one entry per path part, each
    with the path accumulated in [currentBreadcrumbPath]. *)
Fixpoint pushBreadcrumbs (parts : list string) (currentBreadcrumbPath : string)
    (breadcrumbs : list Breadcrumb) : list Breadcrumb :=
  match parts with
  | [] => breadcrumbs
  | part :: r =>
      let currentBreadcrumbPath := currentBreadcrumbPath ++ part ++ "/" in
      pushBreadcrumbs r currentBreadcrumbPath
        (breadcrumbs ++ [ {| crumb_name := part;
                             crumb_path := currentBreadcrumbPath |} ])%list
  end.

Definition breadcrumbs (bucketName : option string) (currentPath : string)
  : list Breadcrumb :=
  pushBreadcrumbs (pathParts currentPath) "/"
    [ {| crumb_name := Js.or_else bucketName "Root"; crumb_path := "/" |} ].

(** [handlePathClick(path)]: the path handed to [onPathChange]. *)
Definition handlePathClick (path : string) : string := path.

(** [handleFileClick] on a folder: the new path handed to [onPathChange]. *)
Definition folderPath (currentPath folderName : string) : string :=
  if String.eqb currentPath "/" then "/" ++ folderName ++ "/"
  else currentPath ++ (if Js.endsWith currentPath "/" then "" else "/")
         ++ folderName ++ "/".

(** The path reached from the root by opening the folders [segments] one
    after the other. *)
Definition pathOfSegments (segments : list string) : string :=
  fold_left folderPath segments "/".

(** A path segment as the explorer produces them: not empty, no slash. *)
Definition validSegment (segment : string) : bool :=
  Js.truthy segment && negb (Js.includes slash segment).

(** *** From the listing to the items shown *)

Section Items.

(** [S3Service.formatFileSize] and [S3Service.formatDate] render through
    floating point and the locale; the explorer only stores what they
    return. *)
Variable formatFileSize : N -> string.
Variable formatDate : string -> string.

(** The prefix that [convertToFileItems] strips. *)
Definition currentPrefix (currentPath : string) : string :=
  if String.eqb currentPath "/" then ""
  else Js.substring_from 1 currentPath.

(** The folder name extracted from one common prefix. *)
Definition folderName (currentPath folderPrefix : string) : option string :=
  let currentPrefix := currentPrefix currentPath in
  let relativePath :=
    if Js.truthy currentPrefix && Js.startsWith folderPrefix currentPrefix
    then Js.substring_from (String.length currentPrefix) folderPrefix
    else folderPrefix in
  Js.first (Js.split slash relativePath).

(** One round of [folders.forEach((folderPrefix, index) => ...)]. *)
Definition pushFolder (currentPath : string) (items : list FileItem)
    (folderPrefix : string) (index : nat) : list FileItem :=
  match folderName currentPath folderPrefix with
  | Some folderName =>
      if Js.truthy folderName then
        (items ++ [ {| id := "folder-" ++ Js.string_of_index index;
                       name := folderName;
                       type := folder;
                       size := None;
                       lastModified := None;
                       contentType := None |} ])%list
      else items
  | None => items
  end.

(** The file name extracted from one object, if it is shown. *)
Definition fileName (currentPath : string) (obj : ObjectInfo)
  : option string :=
  let currentPrefix := currentPrefix currentPath in
  if Js.endsWith (key obj) "/" then None
  else if String.eqb currentPath "/" then
    if negb (Js.includes slash (key obj)) then Some (key obj) else None
  else if Js.startsWith (key obj) currentPrefix then
    let relativePath :=
      Js.substring_from (String.length currentPrefix) (key obj) in
    let cleanPath :=
      if Js.startsWith relativePath "/" then Js.substring_from 1 relativePath
      else relativePath in
    if negb (Js.includes slash cleanPath) then Some cleanPath else None
  else None.

(** One round of [objects.forEach((obj, index) => ...)]. *)
Definition pushObject (currentPath : string) (items : list FileItem)
    (obj : ObjectInfo) (index : nat) : list FileItem :=
  match fileName currentPath obj with
  | Some fileName =>
      if Js.truthy fileName then
        (items ++ [ {| id := "file-" ++ Js.string_of_index index;
                       name := fileName;
                       type := if is_folder obj then folder else file;
                       size :=
                         match S3Service.size obj with
                         | Some n =>
                             if N.eqb n 0 then None
                             else Some (formatFileSize n)
                         | None => None
                         end;
                       lastModified :=
                         match last_modified obj with
                         | Some d =>
                             if Js.truthy d then Some (formatDate d) else None
                         | None => None
                         end;
                       contentType := content_type obj |} ])%list
      else items
  | None => items
  end.

(** [arr.forEach((x, index) => ...)] with the array under construction as
    the state. *)
Fixpoint forEach {A St : Type} (body : St -> A -> nat -> St) (l : list A)
    (index : nat) (state : St) : St :=
  match l with
  | [] => state
  | x :: r => forEach body r (S index) (body state x index)
  end.

(** [convertToFileItems()]: folders from the common prefixes first, then
    files from the objects. *)
Definition convertToFileItems (currentPath : string) (folders : list string)
    (objects : list ObjectInfo) : list FileItem :=
  let items := forEach (pushFolder currentPath) folders 0 [] in
  forEach (pushObject currentPath) objects 0 items.

End Items.

(** *** Ordering *)

Section Ordering.

(** [a.localeCompare(b)]: the collation of the host's locale. *)
Variable localeCompare : string -> string -> Z.

(** The comparison of two optional fields in the [modified], [size] and
    [type] cases: 0 as soon as one of them is falsy. *)
Definition compareField (sortDirection : SortDirection)
    (a b : option string) : Z :=
  match a, b with
  | Some x, Some y =>
      if negb (Js.truthy x) || negb (Js.truthy y) then 0%Z
      else match sortDirection with
           | asc => localeCompare x y
           | desc => localeCompare y x
           end
  | _, _ => 0%Z
  end.

(** The comparator of [sortedFiles]. *)
Definition compareItems (sortBy : SortField) (sortDirection : SortDirection)
    (a b : FileItem) : Z :=
  if negb (ItemType_eqb (type a) (type b)) then
    match type a with folder => (-1)%Z | file => 1%Z end
  else
    match sortBy with
    | by_name =>
        match sortDirection with
        | asc => localeCompare (name a) (name b)
        | desc => localeCompare (name b) (name a)
        end
    | by_modified => compareField sortDirection (lastModified a) (lastModified b)
    | by_size => compareField sortDirection (size a) (size b)
    | by_type => compareField sortDirection (contentType a) (contentType b)
    end.

(** [sortedFiles = [...fileItems].sort(comparator)] *)
Definition sortedFiles (sortBy : SortField) (sortDirection : SortDirection)
    (fileItems : list FileItem) : list FileItem :=
  Js.sort (compareItems sortBy sortDirection) fileItems.

End Ordering.

(** The key of a shown file as [generateDownloadUrls], [handleDownload] and
    [handleCopyLink] build it. *)
Definition fileKey (currentPath name : string) : string :=
  if String.eqb currentPath "/" then name
  else
    let prefix := Js.substring_from 1 currentPath in
    let prefix := if negb (Js.endsWith prefix "/") then prefix ++ "/"
                  else prefix in
    prefix ++ name.

(** The key of a shown item as [confirmDelete] builds it. *)
Definition deleteKey (currentPath fileName : string) : string :=
  if String.eqb currentPath "/" then fileName
  else
    Js.substring_from 1 currentPath
    ++ (if negb (Js.endsWith (Js.substring_from 1 currentPath) "/")
        then "/" else "")
    ++ fileName.

(** The text of the Type column:
    [file.contentType || (file.type === "folder" ? "Folder" : "Unknown")] *)
Definition typeColumn (item : FileItem) : string :=
  Js.or_else (contentType item)
    (match type item with folder => "Folder" | file => "Unknown" end).

End FileExplorer.

(* ===================================================================== *)
(** ** [SettingsService] ([services/settingsService.ts]) *)
(* ===================================================================== *)

Module SettingsService.

Import Settings.

Section Service.

Variable number : Type.

(** The backend commands that answer with the stored settings. *)
Inductive Command : Type :=
| init_settings
| get_settings
| save_settings (settings : RustAppSettings number)
| update_general_settings (general : RustGeneralSettings number)
| update_appearance_settings (appearance : RustAppearanceSettings number)
| update_layout_settings (layout : RustLayoutSettings)
| update_permissions_settings (permissions : RustPermissionsSettings)
| add_connection (connection : RustConnectionConfig)
| update_connection (index : N) (connection : RustConnectionConfig)
| remove_connection (index : N)
| import_settings (importPath : string)
| reset_settings
| reload_settings.

(** The backend: from its state and a command to a rejection or the
    settings, and its next state. *)
Variable BackendState : Type.
Variable respond :
  BackendState -> Command -> (string + RustAppSettings number) * BackendState.

(** A subscribed callback, known by its identity. *)
Definition Listener : Type := nat.

(** The fields of the service ([listeners] is a [Set]: no callback twice,
    in the order of subscription), the backend, the commands invoked and
    the calls made to listeners. Listeners are taken to return normally
    and not to call the service themselves. *)
Record World := {
  initialized : bool;
  settings : option (AppSettings number);
  listeners : list Listener;
  backend : BackendState;
  invoked : list Command;
  delivered : list (Listener * AppSettings number) }.

Definition Run (A : Type) : Type := World -> (string + A) * World.

(** [notifyListeners()] *)
Definition notifyListeners (w : World) : World :=
  match settings w with
  | Some s =>
      {| initialized := initialized w; settings := settings w;
         listeners := listeners w; backend := backend w;
         invoked := invoked w;
         delivered :=
           (delivered w ++ map (fun listener => (listener, s)) (listeners w))%list |}
  | None => w
  end.

(** [await invoke<RustAppSettings>(command)] *)
Definition invoke (command : Command) (w : World)
  : (string + RustAppSettings number) * World :=
  let (answer, next) := respond (backend w) command in
  (answer,
   {| initialized := initialized w; settings := settings w;
      listeners := listeners w; backend := next;
      invoked := (invoked w ++ [command])%list;
      delivered := delivered w |}).

(** The body shared by the methods that fetch settings: invoke, store the
    converted answer, notify, return it; a rejection is thrown on. *)
Definition fetch (command : Command) : Run (AppSettings number) :=
  fun w =>
    match invoke command w with
    | (inr rustSettings, w1) =>
        let s := convertFromRust.settings rustSettings in
        let w2 := {| initialized := initialized w1; settings := Some s;
                     listeners := listeners w1; backend := backend w1;
                     invoked := invoked w1; delivered := delivered w1 |} in
        (inr s, notifyListeners w2)
    | (inl error, w1) => (inl error, w1)
    end.

(** [initialize()] *)
Definition initialize : Run (AppSettings number) :=
  fun w =>
    match initialized w, settings w with
    | true, Some s => (inr s, w)
    | _, _ =>
        match invoke init_settings w with
        | (inr rustSettings, w1) =>
            let s := convertFromRust.settings rustSettings in
            let w2 := {| initialized := true; settings := Some s;
                         listeners := listeners w1; backend := backend w1;
                         invoked := invoked w1; delivered := delivered w1 |} in
            (inr s, notifyListeners w2)
        | (inl error, w1) => (inl error, w1)
        end
    end.

(** [getSettings()] *)
Definition getSettings : Run (AppSettings number) :=
  fun w => if negb (initialized w) then initialize w else fetch get_settings w.

Definition saveSettings (s : AppSettings number) : Run (AppSettings number) :=
  fetch (save_settings (convertToRust.settings s)).

Definition updateGeneralSettings (general : GeneralSettings number)
  : Run (AppSettings number) :=
  fetch (update_general_settings (convertToRust.general general)).

Definition updateAppearanceSettings (appearance : AppearanceSettings number)
  : Run (AppSettings number) :=
  fetch (update_appearance_settings (convertToRust.appearance appearance)).

Definition updateLayoutSettings (layout : LayoutSettings)
  : Run (AppSettings number) :=
  fetch (update_layout_settings (convertToRust.layout layout)).

Definition updatePermissionsSettings (permissions : PermissionsSettings)
  : Run (AppSettings number) :=
  fetch (update_permissions_settings (convertToRust.permissions permissions)).

Definition addConnection (connection : ConnectionConfig)
  : Run (AppSettings number) :=
  fetch (add_connection (convertToRust.connection connection)).

Definition updateConnection (index : N) (connection : ConnectionConfig)
  : Run (AppSettings number) :=
  fetch (update_connection index (convertToRust.connection connection)).

Definition removeConnection (index : N) : Run (AppSettings number) :=
  fetch (remove_connection index).

Definition importSettings (filePath : string) : Run (AppSettings number) :=
  fetch (import_settings filePath).

Definition resetSettings : Run (AppSettings number) := fetch reset_settings.

Definition reloadSettings : Run (AppSettings number) := fetch reload_settings.

(** [subscribe(listener)]: [listeners.add(listener)]. *)
Definition subscribe (listener : Listener) (w : World) : World :=
  {| initialized := initialized w; settings := settings w;
     listeners :=
       if existsb (Nat.eqb listener) (listeners w) then listeners w
       else (listeners w ++ [listener])%list;
     backend := backend w; invoked := invoked w; delivered := delivered w |}.

(** The function that [subscribe] returns: [listeners.delete(listener)]. *)
Definition unsubscribe (listener : Listener) (w : World) : World :=
  {| initialized := initialized w; settings := settings w;
     listeners := filter (fun l => negb (Nat.eqb listener l)) (listeners w);
     backend := backend w; invoked := invoked w; delivered := delivered w |}.

(** [getCurrentSettings()] *)
Definition getCurrentSettings (w : World) : option (AppSettings number) :=
  settings w.

(** The methods that change the stored settings, with their arguments. *)
Inductive Update : Type :=
| SaveSettings (s : AppSettings number)
| UpdateGeneralSettings (general : GeneralSettings number)
| UpdateAppearanceSettings (appearance : AppearanceSettings number)
| UpdateLayoutSettings (layout : LayoutSettings)
| UpdatePermissionsSettings (permissions : PermissionsSettings)
| AddConnection (connection : ConnectionConfig)
| UpdateConnection (index : N) (connection : ConnectionConfig)
| RemoveConnection (index : N)
| ImportSettings (filePath : string)
| ResetSettings
| ReloadSettings.

Definition call (u : Update) : Run (AppSettings number) :=
  match u with
  | SaveSettings s => saveSettings s
  | UpdateGeneralSettings g => updateGeneralSettings g
  | UpdateAppearanceSettings a => updateAppearanceSettings a
  | UpdateLayoutSettings l => updateLayoutSettings l
  | UpdatePermissionsSettings p => updatePermissionsSettings p
  | AddConnection c => addConnection c
  | UpdateConnection i c => updateConnection i c
  | RemoveConnection i => removeConnection i
  | ImportSettings f => importSettings f
  | ResetSettings => resetSettings
  | ReloadSettings => reloadSettings
  end.

(** The command that a method sends. *)
Definition commandOf (u : Update) : Command :=
  match u with
  | SaveSettings s => save_settings (convertToRust.settings s)
  | UpdateGeneralSettings g =>
      update_general_settings (convertToRust.general g)
  | UpdateAppearanceSettings a =>
      update_appearance_settings (convertToRust.appearance a)
  | UpdateLayoutSettings l => update_layout_settings (convertToRust.layout l)
  | UpdatePermissionsSettings p =>
      update_permissions_settings (convertToRust.permissions p)
  | AddConnection c => add_connection (convertToRust.connection c)
  | UpdateConnection i c => update_connection i (convertToRust.connection c)
  | RemoveConnection i => remove_connection i
  | ImportSettings f => import_settings f
  | ResetSettings => reset_settings
  | ReloadSettings => reload_settings
  end.

(** The service as [getInstance()] creates it. *)
Definition fresh (b : BackendState) : World :=
  {| initialized := false; settings := None; listeners := [];
     backend := b; invoked := []; delivered := [] |}.

(** What a user of the service can do, and the worlds this leads to; a
    rejected call leaves the service usable. *)
Inductive Operation : Type :=
| Initialize
| GetSettings
| Change (u : Update)
| Subscribe (listener : Listener)
| Unsubscribe (listener : Listener).

Definition step (w : World) (op : Operation) : World :=
  match op with
  | Initialize => snd (initialize w)
  | GetSettings => snd (getSettings w)
  | Change u => snd (call u w)
  | Subscribe listener => subscribe listener w
  | Unsubscribe listener => unsubscribe listener w
  end.

Definition run (ops : list Operation) (w : World) : World :=
  fold_left step ops w.

(** The worlds that a freshly created service can get into. *)
Definition reachable (w : World) : Prop :=
  exists ops b, w = run ops (fresh b).

(** What holds of the fields in every such world. *)
Definition invariant (w : World) : Prop :=
  NoDup (listeners w)
  /\ (initialized w = true -> settings w <> None)
  /\ (settings w <> None -> invoked w <> []).

(** The calls made to one listener among some calls. *)
Definition callsTo (listener : Listener)
    (calls : list (Listener * AppSettings number))
  : list (Listener * AppSettings number) :=
  filter (fun call => Nat.eqb listener (fst call)) calls.

End Service.

Arguments initialized {number BackendState}.
Arguments settings {number BackendState}.
Arguments listeners {number BackendState}.
Arguments backend {number BackendState}.
Arguments invoked {number BackendState}.
Arguments delivered {number BackendState}.
Arguments fresh {number BackendState}.
Arguments notifyListeners {number BackendState}.
Arguments subscribe {number BackendState}.
Arguments unsubscribe {number BackendState}.
Arguments getCurrentSettings {number BackendState}.
Arguments callsTo {number}.
Arguments commandOf {number}.
Arguments fetch {number BackendState}.
Arguments invoke {number BackendState}.
Arguments initialize {number BackendState}.
Arguments getSettings {number BackendState}.
Arguments saveSettings {number BackendState}.
Arguments call {number BackendState}.
Arguments step {number BackendState}.
Arguments run {number BackendState}.
Arguments reachable {number BackendState}.
Arguments invariant {number BackendState}.

End SettingsService.

(* ===================================================================== *)
(** ** Reference definitions in the words of the specification *)
(* ===================================================================== *)

Module Spec.

Import S3Service.

(** The PaginationCursor of the specification: pages are fetched from the
    lister until one is not truncated; entries accumulate, common prefixes
    accumulate without duplicates, a key seen twice or more pages than the
    ceiling abort the listing. *)
Record Merged := {
  entries : list ObjectInfo;
  commonPrefixes : list string }.

Inductive ListingError : Type :=
| ListingFailed (cause : string)
| Inconsistent
| TooManyPages.

Definition seen (acc : list ObjectInfo) (e : ObjectInfo) : bool :=
  existsb (fun a => String.eqb (key a) (key e)) acc.

Fixpoint paginate (ceiling : nat)
    (lister : option string -> string + ListObjectsResponse)
    (continuationToken : option string) (acc : Merged)
  : ListingError + Merged :=
  match ceiling with
  | O => inl TooManyPages
  | S n =>
      match lister continuationToken with
      | inl cause => inl (ListingFailed cause)
      | inr page =>
          if existsb (seen (entries acc)) (objects page) then inl Inconsistent
          else
            let acc' :=
              {| entries := (entries acc ++ objects page)%list;
                 commonPrefixes :=
                   nodup string_dec
                     (commonPrefixes acc ++ common_prefixes page)%list |} in
            if is_truncated page
            then paginate n lister (next_continuation_token page) acc'
            else inr acc'
      end
  end.

Definition listAllPages (lister : option string -> string + ListObjectsResponse)
  : ListingError + Merged :=
  paginate (100 * 100) lister None {| entries := []; commonPrefixes := [] |}.

(** The folder names of the NamespaceProjector (section 4.4, step 3):
    the prefix is stripped from the start of each common prefix, an entry
    without it is discarded, the first remaining [/]-delimited segment is
    the name, an empty name is discarded, and a name occurs once. *)
Definition folderNameOf (prefix commonPrefix : string) : list string :=
  if Js.startsWith commonPrefix prefix then
    match Js.first (Js.split slash
                      (Js.substring_from (String.length prefix) commonPrefix))
    with
    | Some name => if Js.truthy name then [name] else []
    | None => []
    end
  else [].

Definition folderNames (prefix : string) (commonPrefixes : list string)
  : list string :=
  nodup string_dec (flat_map (folderNameOf prefix) commonPrefixes).

(** [toStoragePrefix]: the root gives the empty prefix, otherwise the
    segments are joined with [/] and a trailing [/] is appended. *)
Definition toStoragePrefix (segments : list string) : string :=
  match segments with
  | [] => ""
  | _ :: _ => String.concat "/" segments ++ "/"
  end.

End Spec.

(* ===================================================================== *)
(** ** Concrete inputs used by the examples below *)
(* ===================================================================== *)

Module Scenario.

Import Settings S3Service FileExplorer.

(** A collation by character codes, standing in for a locale. *)
Definition ordinalCompare (a b : string) : Z :=
  match String.compare a b with
  | Lt => (-1)%Z
  | Eq => 0%Z
  | Gt => 1%Z
  end.

Definition item (id name : string) (type : ItemType)
    (size lastModified contentType : option string) : FileItem :=
  {| FileExplorer.id := id; FileExplorer.name := name;
     FileExplorer.type := type; FileExplorer.size := size;
     lastModified := lastModified; contentType := contentType |}.

Definition undated : FileItem :=
  item "file-0" "a.txt" file None None (Some "text/plain").

Definition dated : FileItem :=
  item "file-1" "b.txt" file (Some "2 KB") (Some "1/2/2024 10:00:00 AM")
       (Some "text/plain").

Definition docs : FileItem := item "folder-0" "docs" folder None None None.

Definition object (key : string) (content_type : option string)
  : ObjectInfo :=
  {| S3Service.key := key; S3Service.size := None; last_modified := None;
     etag := None; storage_class := None;
     S3Service.content_type := content_type; is_folder := false |}.

Definition connection : ConnectionConfig :=
  {| Settings.name := "local"; serviceType := "minio";
     endpoint := "http://localhost:9000"; accessKey := "key";
     secretKey := "secret"; region := "us-east-1"; isDefault := true |}.

(** Two pages: the first truncated, with two entries and a token; the
    second final, with one entry. *)
Definition page1 : ListObjectsResponse :=
  {| S3Service.objects := [object "a.txt" None; object "b.txt" None];
     common_prefixes := ["folder1/"];
     is_truncated := true;
     next_continuation_token := Some "t1";
     prefix := None |}.

Definition page2 : ListObjectsResponse :=
  {| S3Service.objects := [object "c.txt" None];
     common_prefixes := ["folder1/"; "folder2/"];
     is_truncated := false;
     next_continuation_token := None;
     prefix := None |}.

Definition pagedBackend : Backend :=
  fun request =>
    match continuationToken request with
    | None => inr page1
    | Some token =>
        if String.eqb token "t1" then inr page2 else inl "InvalidToken"
    end.

Definition emptyState : ExplorerState :=
  {| FileExplorer.objects := []; folders := []; loading := false;
     error := None |}.

Definition formatFileSize (bytes : N) : string :=
  NilZero.string_of_uint (N.to_uint bytes) ++ " B".

Definition formatDate (dateString : string) : string := dateString.

(** A backend that keeps the settings in memory: it hands out what it
    holds, stores what it is given to save, and rejects the rest. *)
Definition memoryBackend (held : RustAppSettings Z)
    (command : SettingsService.Command Z)
  : (string + RustAppSettings Z) * RustAppSettings Z :=
  match command with
  | SettingsService.init_settings _
  | SettingsService.get_settings _
  | SettingsService.reload_settings _ => (inr held, held)
  | SettingsService.save_settings _ given => (inr given, given)
  | _ => (inl "not supported", held)
  end.

Definition someSettings : AppSettings Z :=
  {| version := "1.0";
     general :=
       {| autoRefresh := true; refreshInterval := 30%Z;
          defaultDownloadLocation := "~/Downloads";
          confirmBeforeDelete := true; showFilePreview := false |};
     connections := [connection];
     appearance :=
       {| theme := "dark"; fontSize := 14%Z; showHiddenFiles := false;
          showFileExtensions := true |};
     layout :=
       {| defaultView := "list"; sortBy := "name"; sortDirection := "asc" |};
     permissions :=
       {| allowAnonymousUsageStats := false; enableCaching := true |} |}.

(** A realm in which a script has added a member to [Object.prototype]
    and an object literal has been evaluated before. *)
Definition extendedRealm : S3Service.Realm :=
  {| S3Service.objectPrototype :=
       ("gz", S3Service.JsString "application/gzip")
       :: S3Service.standardPrototype;
     S3Service.heap := [[("png", "image/x-old")]] |}.

End Scenario.

(* ===================================================================== *)
(** ** Predicates in which the properties are stated *)
(* ===================================================================== *)

Module Predicates.

Import S3Service FileExplorer.

Definition isFile (x : FileItem) : Prop := type x = file.

(** No file is followed, anywhere later in the list, by a folder. *)
Fixpoint foldersFirst (l : list FileItem) : Prop :=
  match l with
  | [] => True
  | x :: r => (type x = file -> Forall isFile r) /\ foldersFirst r
  end.

(** No item is directly followed by one that the comparator orders
    before it. *)
Fixpoint adjacentOrdered (compareFn : FileItem -> FileItem -> Z)
    (l : list FileItem) : Prop :=
  match l with
  | [] => True
  | x :: r =>
      match r with
      | [] => True
      | y :: _ => (compareFn x y <= 0)%Z
      end /\ adjacentOrdered compareFn r
  end.

(** The field of an item that a sort field compares. *)
Definition sortKey (sortBy : SortField) (x : FileItem) : option string :=
  match sortBy with
  | by_name => Some (name x)
  | by_modified => lastModified x
  | by_size => size x
  | by_type => contentType x
  end.

(** An item misses a field when the comparator's guard [!x.field] fires:
    the field is absent or the empty string. *)
Definition missing (sortBy : SortField) (x : FileItem) : bool :=
  negb (Js.truthy_opt (sortKey sortBy x)).

(** A name is resolved by the rule for [suffix] when the name ends with
    [.suffix], the table has an entry under [suffix], and that entry is the
    result. *)
Definition resolvedBy (suffix filename : string) : Prop :=
  Js.endsWith (Js.toLowerCase filename) ("." ++ suffix) = true
  /\ exists mime,
      own_property mimeTypes suffix = Some mime
      /\ getContentType filename = JsString mime.

(** The key under which [getContentType] looks a name up. *)
Definition lookupKey (filename : string) : string :=
  Js.or_else (extension filename) "".

(** The pages of a backend for one request, by continuation token. *)
Definition pagesOf (backend : Backend) (request : ListRequest)
    (token : option string) : string + ListObjectsResponse :=
  backend {| connectionConfig := connectionConfig request;
             bucket := bucket request;
             req_prefix := req_prefix request;
             delimiter := delimiter request;
             maxKeys := maxKeys request;
             continuationToken := token |}.

(** The request that [loadObjects] sends for a connection, a bucket and a
    path. *)
Definition listRequest (connection : Settings.ConnectionConfig)
    (bucket currentPath : string) : ListRequest :=
  {| connectionConfig := Settings.convertToRust.connection connection;
     S3Service.bucket := bucket;
     req_prefix := or_null (normalizePrefix (Some (explorerPrefix currentPath)));
     delimiter := Some "/";
     maxKeys := Some 1000%N;
     continuationToken := None |}.

(** The listing as the specification words it: what [loadObjects] leaves in
    the state is the merge of all pages of the backend. *)
Definition loadsAllPages (backend : Backend)
    (connection : Settings.ConnectionConfig) (bucket currentPath : string)
    (st : ExplorerState) : Prop :=
  forall st',
    fst (loadObjects backend (Some bucket) (Some [connection]) currentPath
           st []) = inr st' ->
    Spec.listAllPages
      (pagesOf backend (listRequest connection bucket currentPath))
    = inr {| Spec.entries := objects st';
             Spec.commonPrefixes := folders st' |}.

(** The names of the items, in order. *)
Definition names (items : list FileItem) : list string := map name items.

(** The name that a common prefix contributes to the view, if any. *)
Definition contributedName (currentPath folderPrefix : string)
  : list string :=
  match folderName currentPath folderPrefix with
  | Some n => if Js.truthy n then [n] else []
  | None => []
  end.

(** The placement as the specification words it: within a group, an item
    that has the field stands before every item that misses it. *)
Definition missingLast (sortBy : SortField) (out : list FileItem) : Prop :=
  forall i j a b,
    nth_error out i = Some a -> nth_error out j = Some b ->
    type a = type b ->
    missing sortBy a = false -> missing sortBy b = true ->
    i < j.

(** The folder nodes as the specification words them. *)
Definition folderNodesAsSpecified (currentPath : string)
    (folders : list string) (items : list FileItem) : Prop :=
  names items = Spec.folderNames (currentPrefix currentPath) folders.

(** The name that an object contributes to the view, if any. *)
Definition shownFileName (currentPath : string) (obj : ObjectInfo)
  : list string :=
  match fileName currentPath obj with
  | Some n => if Js.truthy n then [n] else []
  | None => []
  end.

(** The ids of the items are made from indices below the two bounds. *)
Definition idsBelow (folderBound fileBound : nat) (items : list FileItem)
  : Prop :=
  NoDup (map id items)
  /\ forall item, In item items ->
       (exists j, j < folderBound
                  /\ id item = "folder-" ++ Js.string_of_index j)
       \/ (exists j, j < fileBound
                     /\ id item = "file-" ++ Js.string_of_index j).

(** A collation that orders: it never puts two strings each before the
    other, and its "not after" is transitive. *)
Definition consistentCollation (localeCompare : string -> string -> Z)
  : Prop :=
  (forall a b, (0 < localeCompare a b)%Z -> (localeCompare b a <= 0)%Z)
  /\ (forall a b c,
        (localeCompare a b <= 0)%Z -> (localeCompare b c <= 0)%Z ->
        (localeCompare a c <= 0)%Z).

(** An item takes part in the comparison by a field when the comparator
    reaches the collation for it: always by name, otherwise when the field
    is not missing. *)
Definition comparable (sortBy : SortField) (x : FileItem) : Prop :=
  sortBy = by_name \/ missing sortBy x = false.

(** The text that the collation sees for an item. *)
Definition keyOf (sortBy : SortField) (x : FileItem) : string :=
  match sortKey sortBy x with
  | Some k => k
  | None => ""
  end.

(** Every element is not after any later one. *)
Fixpoint sortedBy {A : Type} (compareFn : A -> A -> Z) (l : list A) : Prop :=
  match l with
  | [] => True
  | x :: r => Forall (fun y => (compareFn x y <= 0)%Z) r /\ sortedBy compareFn r
  end.

End Predicates.

(* ===================================================================== *)
(** * Properties *)
(* ===================================================================== *)

(** ** Settings conversions *)

Section SettingsFacts.

Import Settings.

Variable number : Type.

Lemma connection_from_to (c : ConnectionConfig) :
  convertFromRust.connection (convertToRust.connection c) = c.
Proof. destruct c; reflexivity. Qed.

Lemma connection_to_from (r : RustConnectionConfig) :
  convertToRust.connection (convertFromRust.connection r) = r.
Proof. destruct r; reflexivity. Qed.

Lemma connections_from_to (l : list ConnectionConfig) :
  map convertFromRust.connection (map convertToRust.connection l) = l.
Proof.
  induction l as [|c l IH]; simpl; [reflexivity|].
  now rewrite connection_from_to, IH.
Qed.

Lemma connections_to_from (l : list RustConnectionConfig) :
  map convertToRust.connection (map convertFromRust.connection l) = l.
Proof.
  induction l as [|c l IH]; simpl; [reflexivity|].
  now rewrite connection_to_from, IH.
Qed.

(** C10. Converting frontend settings to the backend representation and
    back gives the settings unchanged, field by field, and so does the
    conversion of backend settings to the frontend and back. *)
Theorem settings_conversion_roundtrip :
  (forall s : AppSettings number,
      convertFromRust.settings (convertToRust.settings s) = s)
  /\ (forall r : RustAppSettings number,
      convertToRust.settings (convertFromRust.settings r) = r).
Proof.
  split.
  - intros [v [] conns [] [] []].
    unfold convertFromRust.settings, convertToRust.settings; simpl.
    now rewrite connections_from_to.
  - intros [v [] conns [] [] []].
    unfold convertFromRust.settings, convertToRust.settings; simpl.
    now rewrite connections_to_from.
Qed.

End SettingsFacts.

(** ** Ordering of the items *)

Section SortFacts.

Variable A : Type.
Variable compareFn : A -> A -> Z.

Lemma insert_perm (x : A) (l : list A) :
  Permutation (x :: l) (Js.insert compareFn x l).
Proof.
  induction l as [|y r IH]; simpl; [apply Permutation_refl|].
  destruct (0 <? compareFn x y)%Z.
  - eapply perm_trans; [apply perm_swap|]. now apply perm_skip.
  - apply Permutation_refl.
Qed.

Lemma sort_perm (l : list A) : Permutation l (Js.sort compareFn l).
Proof.
  induction l as [|x r IH]; simpl; [constructor|].
  eapply perm_trans; [|apply insert_perm]. now apply perm_skip.
Qed.

Lemma insert_Forall (P : A -> Prop) (x : A) (l : list A) :
  P x -> Forall P l -> Forall P (Js.insert compareFn x l).
Proof.
  intros Hx Hl.
  eapply Permutation_Forall; [apply insert_perm|]. now constructor.
Qed.

End SortFacts.

Section OrderingFacts.

Import FileExplorer Predicates.

Variable localeCompare : string -> string -> Z.

Lemma compareItems_mixed (sortBy : SortField) (d : SortDirection)
    (a b : FileItem) :
  type a <> type b ->
  compareItems localeCompare sortBy d a b
  = match type a with folder => (-1)%Z | file => 1%Z end.
Proof.
  intros Hne. unfold compareItems.
  destruct (type a), (type b); simpl; try reflexivity; congruence.
Qed.

Lemma insert_foldersFirst (sortBy : SortField) (d : SortDirection)
    (x : FileItem) (l : list FileItem) :
  foldersFirst l ->
  foldersFirst (Js.insert (compareItems localeCompare sortBy d) x l).
Proof.
  induction l as [|y r IH]; simpl.
  - intros _. split; [intros _; constructor | exact I].
  - intros [Hy Hr].
    destruct (0 <? compareItems localeCompare sortBy d x y)%Z eqn:Hc.
    + simpl. split; [|now apply IH].
      intros Hfile. apply insert_Forall; [|now apply Hy].
      unfold isFile. destruct (type x) eqn:Hx; [reflexivity|].
      rewrite compareItems_mixed in Hc by congruence.
      rewrite Hx in Hc. discriminate.
    + simpl. split; [|now split].
      intros Hfile. constructor; [|].
      * unfold isFile. destruct (type y) eqn:Hty; [reflexivity|].
        rewrite compareItems_mixed in Hc by congruence.
        rewrite Hfile in Hc. discriminate.
      * apply Hy. destruct (type y) eqn:Hty; [reflexivity|].
        rewrite compareItems_mixed in Hc by congruence.
        rewrite Hfile in Hc. discriminate.
Qed.

Lemma sortedFiles_foldersFirst (sortBy : SortField) (d : SortDirection)
    (items : list FileItem) :
  foldersFirst (sortedFiles localeCompare sortBy d items).
Proof.
  unfold sortedFiles, Js.sort.
  induction items as [|x r IH]; simpl; [exact I|].
  now apply insert_foldersFirst.
Qed.

Lemma foldersFirst_positions (l : list FileItem) :
  foldersFirst l ->
  forall i j a b,
    nth_error l i = Some a -> nth_error l j = Some b ->
    type a = folder -> type b = file -> i < j.
Proof.
  induction l as [|x r IH]; intros Hff i j a b Hi Hj Ha Hb.
  - destruct i; discriminate.
  - destruct Hff as [Hx Hr].
    destruct i as [|i], j as [|j]; simpl in Hi, Hj.
    + congruence.
    + lia.
    + injection Hj as ->.
      specialize (Hx Hb). rewrite Forall_forall in Hx.
      apply nth_error_In in Hi. apply Hx in Hi. unfold isFile in Hi.
      congruence.
    + apply -> Nat.succ_lt_mono. eapply IH; eauto.
Qed.

(** C1. Whatever the items, the sort field and the direction, the sorted
    list holds exactly the given items, and every folder in it stands at a
    smaller index than every file. *)
Theorem sortedFiles_folders_before_files
    (sortBy : SortField) (sortDirection : SortDirection)
    (fileItems : list FileItem) :
  Permutation fileItems (sortedFiles localeCompare sortBy sortDirection fileItems)
  /\ forall i j a b,
      nth_error (sortedFiles localeCompare sortBy sortDirection fileItems) i
        = Some a ->
      nth_error (sortedFiles localeCompare sortBy sortDirection fileItems) j
        = Some b ->
      type a = folder -> type b = file -> i < j.
Proof.
  split.
  - apply sort_perm.
  - apply foldersFirst_positions, sortedFiles_foldersFirst.
Qed.

(** Folders also come first in every arrangement in which no item is
    directly followed by one that the comparator orders before it. *)
Lemma adjacentOrdered_foldersFirst (sortBy : SortField) (d : SortDirection)
    (l : list FileItem) :
  adjacentOrdered (compareItems localeCompare sortBy d) l -> foldersFirst l.
Proof.
  induction l as [|x r IH]; simpl; [trivial|].
  intros [Hxy Hr]. specialize (IH Hr). split; [|exact IH].
  intros Hx. destruct r as [|y r']; [constructor|].
  assert (Hy : type y = file).
  { destruct (type y) eqn:Hty; [reflexivity|].
    rewrite compareItems_mixed in Hxy by congruence.
    rewrite Hx in Hxy. lia. }
  constructor; [exact Hy|]. simpl in IH. now apply IH.
Qed.

End OrderingFacts.

Lemma sortedFiles_folders_before_files_witness :
  (nth_error
     (FileExplorer.sortedFiles Scenario.ordinalCompare FileExplorer.by_name
        FileExplorer.asc [Scenario.undated; Scenario.docs; Scenario.dated]) 0
   = Some Scenario.docs
   /\ nth_error
     (FileExplorer.sortedFiles Scenario.ordinalCompare FileExplorer.by_name
        FileExplorer.asc [Scenario.undated; Scenario.docs; Scenario.dated]) 1
   = Some Scenario.undated)
  /\ 0 < 1.
Proof.
  split; [split; reflexivity|].
  exact (proj2 (sortedFiles_folders_before_files Scenario.ordinalCompare
                  FileExplorer.by_name FileExplorer.asc
                  [Scenario.undated; Scenario.docs; Scenario.dated])
           0 1 Scenario.docs Scenario.undated
           eq_refl eq_refl eq_refl eq_refl).
Defined.

Section MissingFieldFacts.

Import FileExplorer Predicates.

Variable localeCompare : string -> string -> Z.

Lemma compareField_missing (d : SortDirection) (a b : option string) :
  Js.truthy_opt a = false \/ Js.truthy_opt b = false ->
  compareField localeCompare d a b = 0%Z.
Proof.
  unfold compareField.
  destruct a as [x|], b as [y|]; simpl; try reflexivity.
  intros [H|H]; rewrite H; simpl; [reflexivity|].
  now rewrite orb_true_r.
Qed.

Lemma compareItems_missing (sortBy : SortField) (d : SortDirection)
    (a b : FileItem) :
  sortBy = by_modified \/ sortBy = by_size ->
  type a = type b ->
  missing sortBy a = true \/ missing sortBy b = true ->
  compareItems localeCompare sortBy d a b = 0%Z.
Proof.
  intros Hf Ht Hm. unfold compareItems.
  replace (ItemType_eqb (type a) (type b)) with true
    by (rewrite Ht; now destruct (type b)).
  simpl. unfold missing in Hm.
  destruct Hf as [-> | ->]; simpl in *;
    apply compareField_missing;
    destruct Hm as [Hm|Hm]; apply negb_true_iff in Hm; auto.
Qed.

(** C6, as the code has it. When sorting by [modified] or [size], two items
    of the same group of which exactly one misses the field compare as
    equal in both directions and in both argument orders, so the sort
    returns the two in the order in which it received them. *)
Theorem missing_field_keeps_input_order
    (sortBy : SortField) (sortDirection : SortDirection) (a b : FileItem) :
  sortBy = by_modified \/ sortBy = by_size ->
  type a = type b ->
  xorb (missing sortBy a) (missing sortBy b) = true ->
  compareItems localeCompare sortBy sortDirection a b = 0%Z
  /\ compareItems localeCompare sortBy sortDirection b a = 0%Z
  /\ sortedFiles localeCompare sortBy sortDirection [a; b] = [a; b]
  /\ sortedFiles localeCompare sortBy sortDirection [b; a] = [b; a].
Proof.
  intros Hf Ht Hx.
  assert (Hab : compareItems localeCompare sortBy sortDirection a b = 0%Z).
  { apply compareItems_missing; auto.
    destruct (missing sortBy a); [now left | now right]. }
  assert (Hba : compareItems localeCompare sortBy sortDirection b a = 0%Z).
  { apply compareItems_missing; auto.
    destruct (missing sortBy a); [now right | now left]. }
  repeat split; auto; unfold sortedFiles; simpl.
  - now rewrite Hab.
  - now rewrite Hba.
Qed.

End MissingFieldFacts.

Lemma missing_field_keeps_input_order_witness :
  FileExplorer.sortedFiles Scenario.ordinalCompare FileExplorer.by_modified
    FileExplorer.desc [Scenario.undated; Scenario.dated]
  = [Scenario.undated; Scenario.dated].
Proof.
  exact (proj1 (proj2 (proj2
    (missing_field_keeps_input_order Scenario.ordinalCompare
       FileExplorer.by_modified FileExplorer.desc
       Scenario.undated Scenario.dated
       (or_introl eq_refl) eq_refl eq_refl)))).
Defined.

(** The file without a date or a size stays in front of the file that has
    them, whatever the direction. *)
Lemma undated_stays_first (f : FileExplorer.SortField)
    (d : FileExplorer.SortDirection) :
  f = FileExplorer.by_modified \/ f = FileExplorer.by_size ->
  FileExplorer.sortedFiles Scenario.ordinalCompare f d
    [Scenario.undated; Scenario.dated]
  = [Scenario.undated; Scenario.dated].
Proof. intros [-> | ->]; destruct d; reflexivity. Qed.

(** C6, as the specification words it, fails: sorted by [modified] or by
    [size], ascending or descending, the file without the field stays in
    front of the file of the same group that has it. *)
Lemma missing_field_not_placed_last :
  ~ Predicates.missingLast FileExplorer.by_modified
      (FileExplorer.sortedFiles Scenario.ordinalCompare
         FileExplorer.by_modified FileExplorer.asc
         [Scenario.undated; Scenario.dated])
  /\ ~ Predicates.missingLast FileExplorer.by_modified
      (FileExplorer.sortedFiles Scenario.ordinalCompare
         FileExplorer.by_modified FileExplorer.desc
         [Scenario.undated; Scenario.dated])
  /\ ~ Predicates.missingLast FileExplorer.by_size
      (FileExplorer.sortedFiles Scenario.ordinalCompare
         FileExplorer.by_size FileExplorer.asc
         [Scenario.undated; Scenario.dated])
  /\ ~ Predicates.missingLast FileExplorer.by_size
      (FileExplorer.sortedFiles Scenario.ordinalCompare
         FileExplorer.by_size FileExplorer.desc
         [Scenario.undated; Scenario.dated]).
Proof.
  rewrite !undated_stays_first by auto.
  repeat split; intros H;
    specialize (H 1 0 Scenario.dated Scenario.undated
                  eq_refl eq_refl eq_refl eq_refl eq_refl); lia.
Qed.

(** ** Strings *)

Section StringFacts.

Variable sep : ascii.

Lemma split_not_nil (s : string) : Js.split sep s <> [].
Proof.
  destruct s as [|a r]; simpl; [discriminate|].
  destruct (Ascii.eqb a sep); [discriminate|].
  destruct (Js.split sep r); discriminate.
Qed.

Lemma split_pieces (s : string) :
  Forall (fun piece => Js.includes sep piece = false) (Js.split sep s).
Proof.
  induction s as [|a r IH]; simpl.
  - constructor; [reflexivity|constructor].
  - destruct (Ascii.eqb a sep) eqn:Ha.
    + constructor; [reflexivity|exact IH].
    + destruct (Js.split sep r) as [|h t].
      * constructor; [simpl; now rewrite Ha|constructor].
      * inversion IH; subst.
        constructor; [simpl; now rewrite Ha|assumption].
Qed.

Lemma split_without_sep (s : string) :
  Js.includes sep s = false -> Js.split sep s = [s].
Proof.
  induction s as [|a r IH]; simpl; [reflexivity|].
  intros H. apply orb_false_iff in H as [Ha Hr].
  rewrite Ha, (IH Hr). reflexivity.
Qed.

Lemma split_app (a b : string) :
  Js.split sep (a ++ String sep b)
  = (Js.split sep a ++ Js.split sep b)%list.
Proof.
  induction a as [|c a IH]; simpl.
  - now rewrite Ascii.eqb_refl.
  - destruct (Ascii.eqb c sep); rewrite IH; [reflexivity|].
    pose proof (split_not_nil a) as Hn.
    destruct (Js.split sep a) as [|h t]; [congruence|reflexivity].
Qed.

Lemma pop_app (l1 l2 : list string) :
  l2 <> [] -> Js.pop (l1 ++ l2)%list = Js.pop l2.
Proof.
  intros Hn. induction l1 as [|x l1 IH]; [reflexivity|].
  simpl. rewrite IH.
  destruct (l1 ++ l2)%list eqn:E; [|reflexivity].
  apply app_eq_nil in E. tauto.
Qed.

Lemma pop_In (l : list string) (x : string) : Js.pop l = Some x -> In x l.
Proof.
  induction l as [|y r IH]; simpl; [discriminate|].
  destruct r as [|z r']; [intros [= ->]; now left|].
  intros H. right. now apply IH.
Qed.

Lemma pop_some (l : list string) : l <> [] -> exists x, Js.pop l = Some x.
Proof.
  induction l as [|y r IH]; [congruence|]. intros _.
  destruct r as [|z r']; [now exists y|].
  destruct IH as [x Hx]; [discriminate|]. exists x. exact Hx.
Qed.

(** The text after the last separator. *)
Lemma pop_split_last (stem ext : string) :
  Js.includes sep ext = false ->
  Js.pop (Js.split sep (stem ++ String sep ext)) = Some ext.
Proof.
  intros H. rewrite split_app, pop_app by apply split_not_nil.
  now rewrite split_without_sep.
Qed.

End StringFacts.

Lemma lower_ascii_dot (a : ascii) :
  Ascii.eqb (Js.lower_ascii a) dot = Ascii.eqb a dot.
Proof. destruct a as [[] [] [] [] [] [] [] []]; reflexivity. Qed.

Lemma toLowerCase_includes_dot (s : string) :
  Js.includes dot (Js.toLowerCase s) = Js.includes dot s.
Proof.
  induction s as [|a r IH]; simpl; [reflexivity|].
  now rewrite lower_ascii_dot, IH.
Qed.

(** ** Type lookup by name *)

Section LookupFacts.

Import S3Service Predicates.

Lemma extension_last_segment (stem ext : string) :
  Js.includes dot ext = false ->
  extension (stem ++ String dot ext) = Some (Js.toLowerCase ext).
Proof.
  intros H. unfold extension. now rewrite pop_split_last.
Qed.

Lemma extension_bare (ext : string) :
  Js.includes dot ext = false ->
  extension ext = Some (Js.toLowerCase ext).
Proof.
  intros H. unfold extension. now rewrite split_without_sep.
Qed.

Lemma extension_defined (filename : string) :
  exists e, extension filename = Some e /\ Js.includes dot e = false.
Proof.
  unfold extension.
  destruct (pop_some (Js.split dot filename) (split_not_nil dot filename))
    as [x Hx].
  exists (Js.toLowerCase x). rewrite Hx. split; [reflexivity|].
  rewrite toLowerCase_includes_dot.
  pose proof (split_pieces dot filename) as Hall.
  rewrite Forall_forall in Hall. apply Hall. now apply pop_In.
Qed.

Lemma own_property_None (table : list (string * string)) (k : string) :
  ~ In k (map fst table) -> own_property table k = None.
Proof.
  induction table as [|[k' v] r IH]; simpl; [reflexivity|].
  intros Hn. destruct (String.eqb_spec k' k) as [->|Hne]; [tauto|].
  apply IH. tauto.
Qed.

Lemma own_property_In (table : list (string * string)) (k v : string) :
  own_property table k = Some v -> In (k, v) table.
Proof.
  induction table as [|[k' v'] r IH]; simpl; [discriminate|].
  destruct (String.eqb_spec k' k) as [->|Hne].
  - intros [= ->]. now left.
  - intros H. right. now apply IH.
Qed.

Lemma inherited_false (k : string) :
  ~ In k objectPrototypeNames -> inherited k = false.
Proof.
  intros Hn. unfold inherited.
  destruct (existsb (String.eqb k) objectPrototypeNames) eqn:E;
    [|reflexivity].
  apply existsb_exists in E as [x [Hin Heq]].
  apply String.eqb_eq in Heq. subst x. contradiction.
Qed.

Lemma inherited_In (k : string) :
  inherited k = true -> In k objectPrototypeNames.
Proof.
  unfold inherited. intros E.
  apply existsb_exists in E as [x [Hin Heq]].
  apply String.eqb_eq in Heq. now subst x.
Qed.

Lemma own_property_of_In (k v : string) :
  In (k, v) mimeTypes -> own_property mimeTypes k = Some v.
Proof.
  simpl. intros H.
  repeat (destruct H as [[= <- <-]|H]; [reflexivity|]).
  contradiction.
Qed.

Lemma mimeTypes_truthy (k v : string) :
  In (k, v) mimeTypes -> Js.truthy v = true.
Proof.
  simpl. intros H.
  repeat (destruct H as [[= <- <-]|H]; [reflexivity|]).
  contradiction.
Qed.

Lemma prototype_property_names (names : list string) (key : string) :
  prototype_property (map (fun name => (name, JsInherited name)) names) key
  = if existsb (String.eqb key) names then Some (JsInherited key) else None.
Proof.
  induction names as [|n r IH]; simpl; [reflexivity|].
  rewrite (String.eqb_sym key n).
  destruct (String.eqb_spec n key) as [->|Hne]; [reflexivity|exact IH].
Qed.

Lemma get_property_allocated (realm : Realm) (key : string) :
  get_property_in (snd (allocate mimeTypes realm))
    (fst (allocate mimeTypes realm)) key
  = match own_property mimeTypes key with
    | Some v => Some (JsString v)
    | None => prototype_property (objectPrototype realm) key
    end.
Proof.
  unfold get_property_in, allocate. cbn [fst snd heap objectPrototype].
  rewrite nth_error_app2 by apply Nat.le_refl.
  rewrite Nat.sub_diag. reflexivity.
Qed.

Lemma getContentTypeIn_value (filename : string) (realm : Realm) :
  fst (getContentTypeIn filename realm)
  = match (match own_property mimeTypes (Predicates.lookupKey filename) with
           | Some v => Some (JsString v)
           | None =>
               prototype_property (objectPrototype realm)
                 (Predicates.lookupKey filename)
           end) with
    | Some v => if value_truthy v then v else JsString defaultContentType
    | None => JsString defaultContentType
    end.
Proof.
  unfold getContentTypeIn.
  pose proof (get_property_allocated realm
                (Js.or_else (extension filename) "")) as H.
  destruct (allocate mimeTypes realm) as [table realm'].
  cbn [fst snd] in *. rewrite H. reflexivity.
Qed.

Lemma getContentTypeIn_objectPrototype (filename : string) (realm : Realm) :
  objectPrototype (snd (getContentTypeIn filename realm))
  = objectPrototype realm.
Proof. reflexivity. Qed.

(** No call changes what a later lookup reads. *)
Lemma performIn_objectPrototype (r : Request) (realm : Realm) :
  objectPrototype (snd (performIn r realm)) = objectPrototype realm.
Proof. destruct r; reflexivity. Qed.

(** An answer depends on the realm through [Object.prototype] alone: not
    on the objects that earlier calls created. *)
Lemma performIn_reads (r : Request) (realm1 realm2 : Realm) :
  objectPrototype realm1 = objectPrototype realm2 ->
  fst (performIn r realm1) = fst (performIn r realm2).
Proof.
  intros H. destruct r as [filename|objectInfo]; [|reflexivity].
  unfold performIn.
  pose proof (getContentTypeIn_value filename realm1) as H1.
  pose proof (getContentTypeIn_value filename realm2) as H2.
  destruct (getContentTypeIn filename realm1) as [v1 r1].
  destruct (getContentTypeIn filename realm2) as [v2 r2].
  cbn [fst] in *. rewrite H1, H2, H. reflexivity.
Qed.

Lemma sessionIn_nth_error (requests : list Request) :
  forall (realm : Realm) (i : nat) (r : Request),
    nth_error requests i = Some r ->
    nth_error (sessionIn requests realm) i = Some (fst (performIn r realm)).
Proof.
  induction requests as [|a rest IH]; intros realm i r Hi.
  - destruct i; discriminate Hi.
  - cbn [sessionIn].
    pose proof (performIn_objectPrototype a realm) as Hp.
    destruct (performIn a realm) as [answer realm'] eqn:Ea.
    cbn [snd] in Hp.
    destruct i as [|i]; cbn [nth_error] in *.
    + injection Hi as <-. now rewrite Ea.
    + rewrite (IH realm' i r Hi). f_equal.
      now apply performIn_reads.
Qed.

(** In a realm whose [Object.prototype] is the language's own, the calls
    answer as the methods do. *)
Lemma performIn_standard (r : Request) (realm : Realm) :
  objectPrototype realm = standardPrototype ->
  fst (performIn r realm) = perform r.
Proof.
  intros H. destruct r as [filename|objectInfo]; [|reflexivity].
  unfold performIn.
  pose proof (getContentTypeIn_value filename realm) as Hv.
  destruct (getContentTypeIn filename realm) as [v realm'].
  cbn [fst] in *. rewrite Hv, H. unfold standardPrototype.
  rewrite prototype_property_names.
  reflexivity.
Qed.

Lemma sessionIn_standard (requests : list Request) :
  forall realm,
    objectPrototype realm = standardPrototype ->
    sessionIn requests realm = session requests.
Proof.
  induction requests as [|a rest IH]; intros realm H; [reflexivity|].
  cbn [sessionIn session map].
  pose proof (performIn_objectPrototype a realm) as Hp.
  pose proof (performIn_standard a realm H) as Ha.
  destruct (performIn a realm) as [answer realm'].
  cbn [fst snd] in *. subst answer. f_equal.
  apply IH. now rewrite Hp.
Qed.

End LookupFacts.

Section LookupClaims.

Import S3Service Predicates.

(** C3, as the code has it. Both lookups use only the lower-cased text
    after the last dot: for [archive.tar.gz] that is [gz], for which
    neither lookup has a rule, so both give their default. The text looked
    up never contains a dot, so no suffix of several segments is ever
    matched, and a name gets the result of its last segment alone. *)
Theorem lookup_uses_last_segment_only :
  extension "archive.tar.gz" = Some "gz"
  /\ getContentType "archive.tar.gz" = JsString defaultContentType
  /\ getFileIcon (Scenario.object "archive.tar.gz" None) = defaultIcon
  /\ (forall filename,
        exists e, extension filename = Some e /\ Js.includes dot e = false)
  /\ (forall stem ext,
        Js.includes dot ext = false ->
        extension (stem ++ "." ++ ext) = Some (Js.toLowerCase ext)
        /\ getContentType (stem ++ "." ++ ext) = getContentType ext
        /\ forall o1 o2,
            key o1 = stem ++ "." ++ ext -> key o2 = ext ->
            is_folder o1 = is_folder o2 ->
            getFileIcon o1 = getFileIcon o2).
Proof.
  split; [reflexivity|]. split; [reflexivity|]. split; [reflexivity|].
  split; [exact extension_defined|].
  intros stem ext H.
  change (stem ++ "." ++ ext) with (stem ++ String dot ext).
  pose proof (extension_last_segment stem ext H) as E1.
  pose proof (extension_bare ext H) as E2.
  split; [exact E1|]. split.
  - unfold getContentType. now rewrite E1, E2.
  - intros o1 o2 K1 K2 F. unfold getFileIcon.
    now rewrite K1, K2, F, E1, E2.
Qed.

(** What [getContentType] does for a name whose looked-up text is not a
    name that every object inherits: it returns the table's value when the
    text is a key of the table, and the default
    [application/octet-stream] when it is not. The explorer's Type column
    shows [Unknown] for a file without a stored content type. *)
Lemma getContentType_ordinary_names :
  (forall filename,
      ~ In (lookupKey filename) objectPrototypeNames ->
      (forall mime,
          In (lookupKey filename, mime) mimeTypes ->
          getContentType filename = JsString mime)
      /\ (~ In (lookupKey filename) (map fst mimeTypes) ->
          getContentType filename = JsString defaultContentType))
  /\ (forall item,
        FileExplorer.type item = FileExplorer.file ->
        Js.truthy_opt (FileExplorer.contentType item) = false ->
        FileExplorer.typeColumn item = "Unknown").
Proof.
  split.
  - intros filename Hp. unfold getContentType, get_property.
    fold (lookupKey filename). rewrite (inherited_false _ Hp).
    split.
    + intros mime Hin.
      rewrite (own_property_of_In _ _ Hin). unfold value_truthy.
      now rewrite (mimeTypes_truthy _ _ Hin).
    + intros Hk. now rewrite (own_property_None _ _ Hk).
  - intros item Ht Hc. unfold FileExplorer.typeColumn. rewrite Ht.
    destruct (FileExplorer.contentType item) as [c|]; simpl in *;
      [now rewrite Hc | reflexivity].
Qed.

(** C7. The code misses the default that the claim states. For
    [notes.constructor] the text looked up is [constructor], which is not
    a key of the table, so no rule matches; the lookup on the object
    literal finds the member of that name that every object inherits, the
    [|| 'application/octet-stream'] does not apply to it, and the call
    returns that member, not the default. The same holds for every name
    whose looked-up text is a name that every object inherits. *)
Theorem getContentType_inherited_member_not_default :
  lookupKey "notes.constructor" = "constructor"
  /\ ~ In "constructor" (map fst mimeTypes)
  /\ getContentType "notes.constructor" = JsInherited "constructor"
  /\ getContentType "notes.constructor" <> JsString defaultContentType
  /\ (forall filename,
        In (lookupKey filename) objectPrototypeNames ->
        ~ In (lookupKey filename) (map fst mimeTypes)
        /\ getContentType filename = JsInherited (lookupKey filename)).
Proof.
  split; [reflexivity|].
  split; [simpl; intuition discriminate|].
  split; [reflexivity|].
  split; [discriminate|].
  intros filename Hin. unfold getContentType. fold (lookupKey filename).
  simpl in Hin.
  repeat (destruct Hin as [<-|Hin];
          [split; [simpl; intuition discriminate | reflexivity]|]).
  contradiction.
Qed.

(** C8. In any sequence of lookups, started in any realm, two requests
    with the same arguments get the same answer wherever they stand in the
    sequence, and that answer is the one the request gets when it is made
    first: a call of [getContentType] creates its table and leaves it
    behind, and no answer depends on the objects that earlier calls
    left. *)
Theorem lookups_independent_of_prior_calls (realm : Realm)
    (requests : list Request) (i j : nat) (r : Request) :
  nth_error requests i = Some r ->
  nth_error requests j = Some r ->
  nth_error (sessionIn requests realm) i = Some (fst (performIn r realm))
  /\ nth_error (sessionIn requests realm) j
     = nth_error (sessionIn requests realm) i.
Proof.
  intros Hi Hj.
  rewrite (sessionIn_nth_error requests realm i r Hi).
  rewrite (sessionIn_nth_error requests realm j r Hj).
  split; reflexivity.
Qed.

End LookupClaims.

Lemma lookup_uses_last_segment_only_witness :
  S3Service.getContentType "Photo.Of.Me.JPG" = S3Service.getContentType "JPG".
Proof.
  exact (proj1 (proj2
    (proj2 (proj2 (proj2 (proj2 lookup_uses_last_segment_only)))
       "Photo.Of.Me" "JPG" eq_refl))).
Defined.

(** C3, as the specification words it, fails: no rule for [tar.gz] decides
    [archive.tar.gz]; the result is the default. *)
Lemma archive_tar_gz_not_resolved_by_compound_rule :
  ~ Predicates.resolvedBy "tar.gz" "archive.tar.gz"
  /\ S3Service.getContentType "archive.tar.gz"
     = S3Service.JsString S3Service.defaultContentType.
Proof.
  split; [|reflexivity].
  intros [_ [mime [H _]]]. discriminate H.
Qed.

Lemma getContentType_inherited_member_not_default_witness :
  S3Service.getContentType "backup.__proto__"
  = S3Service.JsInherited "__proto__".
Proof.
  apply (proj2 (proj2 (proj2 (proj2
    getContentType_inherited_member_not_default))) "backup.__proto__").
  simpl. tauto.
Defined.

Lemma lookups_independent_of_prior_calls_witness :
  nth_error
    (S3Service.sessionIn
       [S3Service.GetContentType "a.png";
        S3Service.GetFileIcon (Scenario.object "movie.mp4" (Some "video/mp4"));
        S3Service.GetContentType "a.png"] Scenario.extendedRealm) 2
  = nth_error
    (S3Service.sessionIn
       [S3Service.GetContentType "a.png";
        S3Service.GetFileIcon (Scenario.object "movie.mp4" (Some "video/mp4"));
        S3Service.GetContentType "a.png"] Scenario.extendedRealm) 0.
Proof.
  exact (proj2 (lookups_independent_of_prior_calls Scenario.extendedRealm
    [S3Service.GetContentType "a.png";
     S3Service.GetFileIcon (Scenario.object "movie.mp4" (Some "video/mp4"));
     S3Service.GetContentType "a.png"]
    0 2 (S3Service.GetContentType "a.png") eq_refl eq_refl)).
Defined.

(** ** Listing *)

Section ListingFacts.

Import Settings S3Service FileExplorer Predicates.

Lemma activeConnection_cons (c : ConnectionConfig)
    (conns : list ConnectionConfig) :
  exists connection, activeConnection (c :: conns) = Some connection.
Proof.
  unfold activeConnection.
  destruct (find isDefault (c :: conns)) as [d|]; [now exists d|].
  now exists c.
Qed.

Lemma listObjects_run (backend : Backend) (connection : ConnectionConfig)
    (bucket currentPath : string) (log : list ListRequest) :
  listObjects backend connection bucket (Some (explorerPrefix currentPath))
    (Some "/") (Some 1000%N) None log
  = (backend (listRequest connection bucket currentPath),
     (log ++ [listRequest connection bucket currentPath])%list).
Proof.
  unfold listObjects, try_catch, invoke, throw, listRequest. simpl.
  destruct (backend _) as [msg|page]; reflexivity.
Qed.

(** C2, as the code has it. For a bucket and a non-empty list of
    connections, [loadObjects] sends exactly one list request: the
    normalised prefix of the path, delimiter [/], 1000 keys at most and no
    continuation token. When the backend answers with a page, the state
    holds that page's objects and common prefixes as they came, whether
    the page is truncated or not; when it rejects the request, the state
    keeps its listing and holds the message. *)
Theorem loadObjects_single_request (backend : Backend) (bucket : string)
    (c : ConnectionConfig) (conns : list ConnectionConfig)
    (currentPath : string) (st : ExplorerState) (log : list ListRequest) :
  Js.truthy bucket = true ->
  exists connection,
    activeConnection (c :: conns) = Some connection
    /\ snd (loadObjects backend (Some bucket) (Some (c :: conns))
              currentPath st log)
       = (log ++ [listRequest connection bucket currentPath])%list
    /\ (forall page,
          backend (listRequest connection bucket currentPath) = inr page ->
          fst (loadObjects backend (Some bucket) (Some (c :: conns))
                 currentPath st log)
          = inr {| objects := S3Service.objects page;
                   folders := common_prefixes page;
                   loading := false;
                   error := None |})
    /\ (forall errorMessage,
          backend (listRequest connection bucket currentPath)
          = inl errorMessage ->
          fst (loadObjects backend (Some bucket) (Some (c :: conns))
                 currentPath st log)
          = inr {| objects := objects st;
                   folders := folders st;
                   loading := false;
                   error := Some (describeError errorMessage) |}).
Proof.
  intros Hb.
  destruct (activeConnection_cons c conns) as [connection Hc].
  exists connection. split; [exact Hc|].
  unfold loadObjects. cbv beta iota. rewrite Hb, Hc.
  unfold bind, try_catch, ret. rewrite listObjects_run.
  destruct (backend (listRequest connection bucket currentPath))
    as [msg|page]; simpl.
  - split; [reflexivity|]. split; [discriminate|].
    now intros ? [= <-].
  - split; [reflexivity|]. split; [|discriminate].
    now intros ? [= <-].
Qed.

End ListingFacts.

Lemma loadObjects_single_request_witness :
  List.length
    (snd (FileExplorer.loadObjects Scenario.pagedBackend (Some "photos")
            (Some [Scenario.connection]) "/" Scenario.emptyState [])) = 1.
Proof.
  destruct (loadObjects_single_request Scenario.pagedBackend "photos"
              Scenario.connection [] "/" Scenario.emptyState [] eq_refl)
    as [connection [_ [Hlog _]]].
  rewrite Hlog. reflexivity.
Defined.

(** C2, as the specification words it, fails: on a listing of two pages the
    state holds the two entries of the first page and one request was
    sent, while the merge of all pages has three entries. *)
Lemma truncated_listing_not_continued :
  ~ Predicates.loadsAllPages Scenario.pagedBackend Scenario.connection
      "photos" "/" Scenario.emptyState
  /\ fst (FileExplorer.loadObjects Scenario.pagedBackend (Some "photos")
            (Some [Scenario.connection]) "/" Scenario.emptyState [])
     = inr {| FileExplorer.objects := S3Service.objects Scenario.page1;
              FileExplorer.folders := S3Service.common_prefixes Scenario.page1;
              FileExplorer.loading := false;
              FileExplorer.error := None |}
  /\ Spec.listAllPages
       (Predicates.pagesOf Scenario.pagedBackend
          (Predicates.listRequest Scenario.connection "photos" "/"))
     = inr {| Spec.entries :=
                [Scenario.object "a.txt" None; Scenario.object "b.txt" None;
                 Scenario.object "c.txt" None];
              Spec.commonPrefixes := ["folder1/"; "folder2/"] |}.
Proof.
  assert (Hspec :
    Spec.listAllPages
       (Predicates.pagesOf Scenario.pagedBackend
          (Predicates.listRequest Scenario.connection "photos" "/"))
     = inr {| Spec.entries :=
                [Scenario.object "a.txt" None; Scenario.object "b.txt" None;
                 Scenario.object "c.txt" None];
              Spec.commonPrefixes := ["folder1/"; "folder2/"] |})
    by (vm_compute; reflexivity).
  split; [|split; [reflexivity | exact Hspec]].
  intros H. specialize (H _ eq_refl). rewrite Hspec in H.
  discriminate H.
Qed.

(** ** From the listing to the items *)

Section ItemsFacts.

Import S3Service FileExplorer Predicates.

Variable formatFileSize : N -> string.
Variable formatDate : string -> string.

(** Each round of the two loops appends to the array and reads nothing
    from it. *)
Lemma forEach_pushFolder (currentPath : string) (l : list string)
    (index : nat) (items : list FileItem) :
  forEach (pushFolder currentPath) l index items
  = (items ++ forEach (pushFolder currentPath) l index [])%list.
Proof.
  revert index items. induction l as [|x r IH]; intros index items; simpl.
  - now rewrite app_nil_r.
  - rewrite (IH _ (pushFolder currentPath items x index)).
    rewrite (IH _ (pushFolder currentPath [] x index)).
    unfold pushFolder.
    destruct (folderName currentPath x) as [n|]; [|reflexivity].
    destruct (Js.truthy n); [|reflexivity].
    now rewrite <- app_assoc.
Qed.

Lemma forEach_pushObject (currentPath : string) (l : list ObjectInfo)
    (index : nat) (items : list FileItem) :
  forEach (pushObject formatFileSize formatDate currentPath) l index items
  = (items
     ++ forEach (pushObject formatFileSize formatDate currentPath) l index [])%list.
Proof.
  revert index items. induction l as [|x r IH]; intros index items; simpl.
  - now rewrite app_nil_r.
  - rewrite (IH _ (pushObject _ _ currentPath items x index)).
    rewrite (IH _ (pushObject _ _ currentPath [] x index)).
    unfold pushObject.
    destruct (fileName currentPath x) as [n|]; [|reflexivity].
    destruct (Js.truthy n); [|reflexivity].
    now rewrite <- app_assoc.
Qed.

Lemma folder_items_names (currentPath : string) (l : list string)
    (index : nat) :
  names (forEach (pushFolder currentPath) l index [])
  = flat_map (contributedName currentPath) l.
Proof.
  revert index. induction l as [|x r IH]; intros index; simpl;
    [reflexivity|].
  rewrite forEach_pushFolder. unfold names in *.
  rewrite map_app, IH. f_equal.
  unfold pushFolder, contributedName.
  destruct (folderName currentPath x) as [n|]; [|reflexivity].
  destruct (Js.truthy n); reflexivity.
Qed.

Lemma folder_items_type (currentPath : string) (l : list string)
    (index : nat) :
  Forall (fun item => type item = folder)
    (forEach (pushFolder currentPath) l index []).
Proof.
  revert index. induction l as [|x r IH]; intros index; simpl;
    [constructor|].
  rewrite forEach_pushFolder. apply Forall_app. split; [|apply IH].
  unfold pushFolder.
  destruct (folderName currentPath x) as [n|]; [|constructor].
  destruct (Js.truthy n); constructor; [reflexivity|constructor].
Qed.

(** C5, as the code has it. The items start with the folder nodes of the
    common prefixes, in listing order: a common prefix that starts with the
    current prefix gives the first [/]-delimited segment after it, any
    other common prefix gives its own first segment, and a node is made
    whenever that segment is not empty, one node per common prefix and so
    one node per occurrence of a name. *)
Theorem folder_nodes_of_common_prefixes (currentPath : string)
    (folders : list string) (objects : list ObjectInfo) :
  (exists fromObjects,
      convertToFileItems formatFileSize formatDate currentPath folders objects
      = (convertToFileItems formatFileSize formatDate currentPath folders []
         ++ fromObjects)%list)
  /\ Forall (fun item => type item = folder)
       (convertToFileItems formatFileSize formatDate currentPath folders [])
  /\ names (convertToFileItems formatFileSize formatDate currentPath folders [])
     = flat_map (contributedName currentPath) folders
  /\ (forall folderPrefix,
        Js.startsWith folderPrefix (currentPrefix currentPath) = true ->
        folderName currentPath folderPrefix
        = Js.first (Js.split slash
             (Js.substring_from (String.length (currentPrefix currentPath))
                folderPrefix)))
  /\ (forall folderPrefix,
        Js.startsWith folderPrefix (currentPrefix currentPath) = false ->
        folderName currentPath folderPrefix
        = Js.first (Js.split slash folderPrefix)).
Proof.
  split; [|split; [|split; [|split]]].
  - unfold convertToFileItems. simpl.
    rewrite forEach_pushObject. eauto.
  - apply folder_items_type.
  - apply folder_items_names.
  - intros fp Hs. unfold folderName. rewrite Hs.
    destruct (currentPrefix currentPath) as [|c rest]; reflexivity.
  - intros fp Hs. unfold folderName. rewrite Hs.
    now rewrite andb_false_r.
Qed.

End ItemsFacts.

Lemma folder_nodes_of_common_prefixes_witness :
  FileExplorer.folderName "/photos/" "photos/2024/"
  = Js.first (Js.split slash
       (Js.substring_from
          (String.length (FileExplorer.currentPrefix "/photos/"))
          "photos/2024/")).
Proof.
  exact (proj1 (proj2 (proj2 (proj2
    (folder_nodes_of_common_prefixes Scenario.formatFileSize
       Scenario.formatDate "/photos/" ["photos/2024/"] [])))) 
    "photos/2024/" eq_refl).
Defined.

(** C5, as the specification words it, fails: under [/a/] the common prefix
    [b/c/], which does not start with [a/], gives a folder node [b], and
    the common prefix [a/x/] listed twice gives two nodes [x]. *)
Lemma stray_and_repeated_prefixes_kept :
  (Js.startsWith "b/c/" (FileExplorer.currentPrefix "/a/") = false
   /\ Predicates.names
        (FileExplorer.convertToFileItems Scenario.formatFileSize
           Scenario.formatDate "/a/" ["b/c/"] []) = ["b"]
   /\ ~ Predicates.folderNodesAsSpecified "/a/" ["b/c/"]
        (FileExplorer.convertToFileItems Scenario.formatFileSize
           Scenario.formatDate "/a/" ["b/c/"] []))
  /\ (Predicates.names
        (FileExplorer.convertToFileItems Scenario.formatFileSize
           Scenario.formatDate "/a/" ["a/x/"; "a/x/"] []) = ["x"; "x"]
      /\ ~ Predicates.folderNodesAsSpecified "/a/" ["a/x/"; "a/x/"]
           (FileExplorer.convertToFileItems Scenario.formatFileSize
              Scenario.formatDate "/a/" ["a/x/"; "a/x/"] [])).
Proof.
  repeat split; try reflexivity;
    unfold Predicates.folderNodesAsSpecified; vm_compute; discriminate.
Qed.

(** ** Paths, prefixes and breadcrumbs *)

Section PathFacts.

Import S3Service FileExplorer.

Lemma length_append (a b : string) :
  String.length (a ++ b) = String.length a + String.length b.
Proof. induction a as [|c a IH]; simpl; [reflexivity|now rewrite IH]. Qed.

Lemma substring_from_append (a b : string) :
  Js.substring_from (String.length a) (a ++ b) = b.
Proof.
  induction a as [|c a IH]; simpl; [now destruct b|exact IH].
Qed.

Lemma endsWith_append (a q : string) : Js.endsWith (a ++ q) q = true.
Proof.
  unfold Js.endsWith. rewrite length_append.
  replace (String.length a + String.length q - String.length q)
    with (String.length a) by lia.
  rewrite substring_from_append, String.eqb_refl, andb_true_r.
  apply Nat.leb_le. lia.
Qed.

Lemma append_assoc (a b c : string) : (a ++ b) ++ c = a ++ b ++ c.
Proof. induction a as [|x a IH]; simpl; [reflexivity|now rewrite IH]. Qed.

Lemma append_empty_r (a : string) : a ++ "" = a.
Proof. induction a as [|x a IH]; simpl; [reflexivity|now rewrite IH]. Qed.

Lemma toStoragePrefix_cons (segment : string) (segments : list string) :
  Spec.toStoragePrefix (segment :: segments)
  = segment ++ "/" ++ Spec.toStoragePrefix segments.
Proof.
  unfold Spec.toStoragePrefix.
  destruct segments as [|y ys]; [reflexivity|].
  change (String.concat "/" (segment :: y :: ys))
    with (segment ++ "/" ++ String.concat "/" (y :: ys)).
  now rewrite !append_assoc.
Qed.

Lemma toStoragePrefix_snoc (segments : list string) (segment : string) :
  Spec.toStoragePrefix (segments ++ [segment])
  = Spec.toStoragePrefix segments ++ segment ++ "/".
Proof.
  induction segments as [|s r IH].
  - reflexivity.
  - change ((s :: r) ++ [segment])%list with (s :: (r ++ [segment]))%list.
    rewrite !toStoragePrefix_cons, IH.
    now rewrite !append_assoc.
Qed.

(** Opening a folder under a path that ends with a slash appends the
    folder's name and a slash. *)
Lemma folderPath_append (currentPath folderName : string) :
  Js.endsWith currentPath "/" = true ->
  folderPath currentPath folderName = currentPath ++ folderName ++ "/".
Proof.
  intros H. unfold folderPath.
  destruct (String.eqb_spec currentPath "/") as [->|_]; [reflexivity|].
  now rewrite H.
Qed.

Lemma fold_folderPath (segments : list string) (currentPath : string) :
  Js.endsWith currentPath "/" = true ->
  fold_left folderPath segments currentPath
  = currentPath ++ Spec.toStoragePrefix segments.
Proof.
  revert currentPath.
  induction segments as [|s r IH]; intros currentPath H; cbn [fold_left].
  - unfold Spec.toStoragePrefix. now rewrite append_empty_r.
  - rewrite folderPath_append by exact H.
    rewrite IH.
    + rewrite toStoragePrefix_cons. now rewrite !append_assoc.
    + rewrite <- append_assoc. apply endsWith_append.
Qed.

Lemma pathOfSegments_spec (segments : list string) :
  pathOfSegments segments = "/" ++ Spec.toStoragePrefix segments.
Proof. unfold pathOfSegments. now apply fold_folderPath. Qed.

Lemma toStoragePrefix_endsWith (segments : list string) :
  segments <> [] ->
  Js.endsWith (Spec.toStoragePrefix segments) "/" = true.
Proof.
  intros Hn.
  destruct (exists_last Hn) as [front [lst ->]].
  rewrite toStoragePrefix_snoc, <- append_assoc.
  apply endsWith_append.
Qed.

Lemma validSegment_head (segment : string) :
  validSegment segment = true ->
  exists c rest, segment = String c rest /\ Ascii.eqb c slash = false.
Proof.
  unfold validSegment. destruct segment as [|c rest]; [discriminate|].
  simpl. intros H. apply negb_true_iff, orb_false_iff in H as [Hc _].
  now exists c, rest.
Qed.

Lemma explorerPrefix_rooted (p : string) :
  Js.truthy p = true -> Js.endsWith p "/" = true ->
  explorerPrefix ("/" ++ p) = p.
Proof.
  intros Ht He. destruct p as [|c tail]; [discriminate|].
  unfold explorerPrefix.
  change ("/" ++ String c tail) with (String slash (String c tail)).
  change (String.eqb (String slash (String c tail)) "/") with false.
  cbv beta iota.
  change (Js.substring_from 1 (String slash (String c tail)))
    with (String c tail).
  now rewrite He.
Qed.

Lemma normalizePrefix_kept (p : string) :
  Js.truthy p = true -> Js.startsWith p "/" = false ->
  Js.endsWith p "/" = true ->
  normalizePrefix (Some p) = Some p.
Proof.
  intros Ht Hs He. unfold normalizePrefix.
  now rewrite Ht, Hs, Ht, He.
Qed.

Lemma storagePrefix_rooted (p : string) :
  Js.truthy p = true -> Js.startsWith p "/" = false ->
  Js.endsWith p "/" = true ->
  storagePrefix ("/" ++ p) = p.
Proof.
  intros Ht Hs He. unfold storagePrefix.
  rewrite explorerPrefix_rooted, normalizePrefix_kept by assumption.
  unfold or_null. now rewrite Ht.
Qed.

Lemma toStoragePrefix_head (segments : list string) :
  segments <> [] ->
  Forall (fun s => validSegment s = true) segments ->
  Js.truthy (Spec.toStoragePrefix segments) = true
  /\ Js.startsWith (Spec.toStoragePrefix segments) "/" = false.
Proof.
  intros Hn Hv. destruct segments as [|s r]; [congruence|].
  inversion Hv as [|? ? Hs Hr]; subst.
  destruct (validSegment_head s Hs) as [c [rest [-> Hc]]].
  rewrite toStoragePrefix_cons.
  split; [reflexivity|].
  simpl. fold slash. now rewrite Hc.
Qed.

(** The prefix sent for the path of a sequence of segments. *)
Lemma storagePrefix_of_segments (segments : list string) :
  Forall (fun s => validSegment s = true) segments ->
  storagePrefix ("/" ++ Spec.toStoragePrefix segments)
  = Spec.toStoragePrefix segments.
Proof.
  intros Hv. destruct segments as [|s r]; [reflexivity|].
  destruct (toStoragePrefix_head (s :: r) ltac:(discriminate) Hv)
    as [Ht Hs].
  apply storagePrefix_rooted; auto.
  apply toStoragePrefix_endsWith. discriminate.
Qed.

End PathFacts.

Lemma Forall_take {A : Type} (P : A -> Prop) (n : nat) (l : list A) :
  Forall P l -> Forall P (firstn n l).
Proof.
  revert l. induction n as [|n IH]; intros l H; simpl; [constructor|].
  destruct H as [|x r Hx Hr]; constructor; auto.
Qed.

Section BreadcrumbFacts.

Import S3Service FileExplorer.

Lemma pathParts_valid (currentPath : string) :
  Forall (fun s => validSegment s = true) (pathParts currentPath).
Proof.
  unfold pathParts, Js.filter_Boolean. apply Forall_forall.
  intros s Hin. apply filter_In in Hin as [Hin Ht].
  pose proof (split_pieces slash currentPath) as Hall.
  rewrite Forall_forall in Hall. specialize (Hall s Hin).
  unfold validSegment. now rewrite Ht, Hall.
Qed.

Lemma validSegment_parts (s : string) :
  validSegment s = true ->
  Js.truthy s = true /\ Js.includes slash s = false.
Proof.
  unfold validSegment. intros H. apply andb_true_iff in H as [Ht Hi].
  now apply negb_true_iff in Hi.
Qed.

(** The parts of a joined sequence of segments are the segments. *)
Lemma pathParts_toStoragePrefix (segments : list string) :
  Forall (fun s => validSegment s = true) segments ->
  pathParts (Spec.toStoragePrefix segments) = segments.
Proof.
  induction segments as [|s r IH]; intros Hv; [reflexivity|].
  inversion Hv as [|? ? Hs Hr]; subst.
  destruct (validSegment_parts s Hs) as [Ht Hi].
  rewrite toStoragePrefix_cons.
  change (s ++ "/" ++ Spec.toStoragePrefix r)
    with (s ++ String slash (Spec.toStoragePrefix r)).
  unfold pathParts, Js.filter_Boolean in *.
  rewrite split_app, split_without_sep by exact Hi.
  simpl. rewrite Ht. f_equal. now apply IH.
Qed.

Lemma pushBreadcrumbs_app (parts : list string) (cur : string)
    (crumbs : list Breadcrumb) :
  pushBreadcrumbs parts cur crumbs
  = (crumbs ++ pushBreadcrumbs parts cur [])%list.
Proof.
  revert cur crumbs.
  induction parts as [|p r IH]; intros cur crumbs; simpl.
  - now rewrite app_nil_r.
  - rewrite (IH _ (crumbs ++ _)%list), (IH _ [_]).
    now rewrite <- app_assoc.
Qed.

Lemma pushBreadcrumbs_length (parts : list string) (cur : string) :
  List.length (pushBreadcrumbs parts cur []) = List.length parts.
Proof.
  revert cur. induction parts as [|p r IH]; intros cur; simpl;
    [reflexivity|].
  rewrite pushBreadcrumbs_app. simpl. now rewrite IH.
Qed.

Lemma pushBreadcrumbs_nth (parts : list string) (cur : string) (i : nat)
    (part : string) :
  nth_error parts i = Some part ->
  nth_error (pushBreadcrumbs parts cur []) i
  = Some {| crumb_name := part;
            crumb_path := cur ++ Spec.toStoragePrefix (firstn (S i) parts) |}.
Proof.
  revert cur i.
  induction parts as [|p r IH]; intros cur i Hi; [now destruct i|].
  simpl pushBreadcrumbs. rewrite pushBreadcrumbs_app.
  destruct i as [|i]; simpl in Hi.
  - injection Hi as ->. reflexivity.
  - simpl nth_error. rewrite (IH _ _ Hi).
    change (firstn (S (S i)) (p :: r)) with (p :: firstn (S i) r).
    rewrite toStoragePrefix_cons. now rewrite !append_assoc.
Qed.

(** C9. The breadcrumbs are the root entry, named after the bucket (or
    [Root]) and carrying [/], followed by one entry per part of the path;
    the entry of part [i] carries the path of the first [i+1] parts.
    Clicking the root entry lists the empty prefix, and clicking the entry
    of part [i] lists the storage prefix of that ancestor. *)
Theorem breadcrumbs_rederive_prefixes (bucketName : option string)
    (currentPath : string) :
  List.length (breadcrumbs bucketName currentPath)
  = S (List.length (pathParts currentPath))
  /\ nth_error (breadcrumbs bucketName currentPath) 0
     = Some {| crumb_name := Js.or_else bucketName "Root";
               crumb_path := "/" |}
  /\ storagePrefix (handlePathClick "/") = ""
  /\ forall i part,
      nth_error (pathParts currentPath) i = Some part ->
      exists crumb,
        nth_error (breadcrumbs bucketName currentPath) (S i) = Some crumb
        /\ crumb_name crumb = part
        /\ crumb_path crumb
           = pathOfSegments (firstn (S i) (pathParts currentPath))
        /\ storagePrefix (handlePathClick (crumb_path crumb))
           = Spec.toStoragePrefix (firstn (S i) (pathParts currentPath)).
Proof.
  unfold breadcrumbs. rewrite pushBreadcrumbs_app.
  split; [|split; [|split]].
  - simpl. now rewrite pushBreadcrumbs_length.
  - reflexivity.
  - reflexivity.
  - intros i part Hi.
    exists {| crumb_name := part;
              crumb_path :=
                "/" ++ Spec.toStoragePrefix
                         (firstn (S i) (pathParts currentPath)) |}.
    split; [|split; [reflexivity|split]].
    + cbn [app nth_error]. now apply pushBreadcrumbs_nth.
    + cbn [crumb_path]. now rewrite pathOfSegments_spec.
    + cbn [crumb_path]. unfold handlePathClick.
      apply storagePrefix_of_segments.
      apply Forall_take, pathParts_valid.
Qed.

Lemma explorerPrefix_trailing (currentPath : string) :
  explorerPrefix currentPath = ""
  \/ Js.endsWith (explorerPrefix currentPath) "/" = true.
Proof.
  unfold explorerPrefix.
  destruct (String.eqb currentPath "/"); [now left|]. right.
  destruct (Js.endsWith (Js.substring_from 1 currentPath) "/") eqn:E;
    simpl; [exact E | apply endsWith_append].
Qed.

Lemma storagePrefix_trailing (currentPath : string) :
  Js.truthy (storagePrefix currentPath) = true ->
  Js.endsWith (storagePrefix currentPath) "/" = true.
Proof.
  unfold storagePrefix, normalizePrefix, or_null.
  destruct (Js.truthy (explorerPrefix currentPath)) eqn:Ht.
  - set (p1 := if Js.startsWith (explorerPrefix currentPath) "/"
               then Js.substring_from 1 (explorerPrefix currentPath)
               else explorerPrefix currentPath).
    destruct (Js.truthy p1) eqn:Ht1; simpl.
    + destruct (Js.endsWith p1 "/") eqn:He; simpl.
      * rewrite Ht1. intros _. exact He.
      * destruct (Js.truthy (p1 ++ "/")); [|discriminate].
        intros _. apply endsWith_append.
    + rewrite Ht1. discriminate.
  - rewrite Ht. discriminate.
Qed.

(** C4. The root path gives the empty prefix, and for every path the
    prefix sent to the backend ends with [/] when it is not empty. For a
    path made of valid segments that prefix is the segments joined with
    [/] plus a trailing [/]: it does not start with [/], its parts are the
    segments again, and the path built from its parts gives the same
    prefix again. *)
Theorem storagePrefix_shape_and_roundtrip :
  storagePrefix "/" = ""
  /\ (forall currentPath,
        Js.truthy (storagePrefix currentPath) = true ->
        Js.endsWith (storagePrefix currentPath) "/" = true)
  /\ forall segments,
      Forall (fun s => validSegment s = true) segments ->
      storagePrefix (pathOfSegments segments) = Spec.toStoragePrefix segments
      /\ Js.startsWith (storagePrefix (pathOfSegments segments)) "/" = false
      /\ (Js.truthy (storagePrefix (pathOfSegments segments)) = true ->
          Js.endsWith (storagePrefix (pathOfSegments segments)) "/" = true)
      /\ pathParts (storagePrefix (pathOfSegments segments)) = segments
      /\ storagePrefix
           (pathOfSegments (pathParts (Spec.toStoragePrefix segments)))
         = Spec.toStoragePrefix segments.
Proof.
  split; [reflexivity|]. split; [exact storagePrefix_trailing|].
  intros segments Hv.
  assert (E : storagePrefix (pathOfSegments segments)
              = Spec.toStoragePrefix segments).
  { rewrite pathOfSegments_spec. now apply storagePrefix_of_segments. }
  rewrite pathParts_toStoragePrefix, E by exact Hv.
  split; [reflexivity|].
  destruct segments as [|s r].
  - repeat split; try reflexivity. discriminate.
  - destruct (toStoragePrefix_head (s :: r) ltac:(discriminate) Hv)
      as [Ht Hs].
    split; [exact Hs|]. split.
    + intros _. apply toStoragePrefix_endsWith. discriminate.
    + split; [|reflexivity]. now apply pathParts_toStoragePrefix.
Qed.

End BreadcrumbFacts.

Lemma breadcrumbs_rederive_prefixes_witness :
  exists crumb,
    nth_error (FileExplorer.breadcrumbs (Some "photos") "/folder1/sub/") 2
    = Some crumb
    /\ FileExplorer.crumb_name crumb = "sub"
    /\ FileExplorer.crumb_path crumb
       = FileExplorer.pathOfSegments
           (firstn 2 (FileExplorer.pathParts "/folder1/sub/"))
    /\ FileExplorer.storagePrefix
         (FileExplorer.handlePathClick (FileExplorer.crumb_path crumb))
       = Spec.toStoragePrefix
           (firstn 2 (FileExplorer.pathParts "/folder1/sub/")).
Proof.
  exact (proj2 (proj2 (proj2
    (breadcrumbs_rederive_prefixes (Some "photos") "/folder1/sub/")))
    1 "sub" eq_refl).
Defined.

Lemma storagePrefix_shape_and_roundtrip_witness :
  FileExplorer.storagePrefix
    (FileExplorer.pathOfSegments ["photos"; "2024"])
  = Spec.toStoragePrefix ["photos"; "2024"].
Proof.
  apply (proj2 (proj2 storagePrefix_shape_and_roundtrip) ["photos"; "2024"]).
  repeat constructor.
Defined.

(* ===================================================================== *)
(** * Further properties of the sources *)
(* ===================================================================== *)

(** ** More on strings *)

Lemma substring_from_zero (s : string) : Js.substring_from 0 s = s.
Proof. now destruct s. Qed.

Lemma substring_from_decompose (n : nat) (s : string) :
  exists a, s = a ++ Js.substring_from n s.
Proof.
  revert s. induction n as [|n IH]; intros s.
  - exists "". now destruct s.
  - destruct s as [|c r]; [now exists ""|].
    destruct (IH r) as [a Ha]. exists (String c a).
    simpl. now rewrite <- Ha.
Qed.

Lemma endsWith_decompose (s q : string) :
  Js.endsWith s q = true -> exists a, s = a ++ q.
Proof.
  unfold Js.endsWith. intros H. apply andb_true_iff in H as [_ H].
  apply String.eqb_eq in H.
  destruct (substring_from_decompose (String.length s - String.length q) s)
    as [a Ha].
  exists a. now rewrite H in Ha.
Qed.

Lemma startsWith_append (a b : string) : Js.startsWith (a ++ b) a = true.
Proof.
  induction a as [|c a IH]; simpl; [now destruct b|].
  now rewrite Ascii.eqb_refl, IH.
Qed.

Lemma startsWith_decompose (s p : string) :
  Js.startsWith s p = true ->
  s = p ++ Js.substring_from (String.length p) s.
Proof.
  revert s. induction p as [|b p IH]; intros s H.
  - now destruct s.
  - destruct s as [|a s]; [discriminate|]. simpl in H.
    apply andb_true_iff in H as [Hab Hs].
    apply Ascii.eqb_eq in Hab. subst b. simpl. f_equal. now apply IH.
Qed.

Lemma includes_append (c : ascii) (a b : string) :
  Js.includes c (a ++ b) = Js.includes c a || Js.includes c b.
Proof.
  induction a as [|x a IH]; simpl; [reflexivity|].
  now rewrite IH, orb_assoc.
Qed.

(** A string that ends with a slash after a non-empty tail has the slash
    in that tail. *)
Lemma tail_of_slash_ended (a k q : string) :
  a ++ k = q ++ "/" -> Js.truthy k = true -> Js.includes slash k = true.
Proof.
  revert q. induction a as [|c a IH]; intros q H Hk.
  - simpl in H. subst k. rewrite includes_append. simpl.
    now rewrite orb_true_r.
  - destruct q as [|d q].
    + simpl in H. injection H as _ H.
      destruct a; [simpl in H; subst k; discriminate | discriminate].
    + simpl in H. injection H as _ H. now apply (IH q).
Qed.

Lemma endsWith_slash_segment (a k : string) :
  Js.truthy k = true -> Js.includes slash k = false ->
  Js.endsWith (a ++ k) "/" = false.
Proof.
  intros Hk Hi. destruct (Js.endsWith (a ++ k) "/") eqn:E; [|reflexivity].
  apply endsWith_decompose in E as [q Hq].
  rewrite (tail_of_slash_ended a k q Hq Hk) in Hi. discriminate.
Qed.

(** ** Keys of the shown files *)

Section KeyFacts.

Import S3Service FileExplorer.

(** X1. The key built for deleting an item and the key built for
    downloading or linking it are the same for every path and name, and
    both are the listing prefix of the path followed by the name. *)
Theorem delete_and_download_keys_agree (currentPath name : string) :
  deleteKey currentPath name = fileKey currentPath name
  /\ fileKey currentPath name = explorerPrefix currentPath ++ name.
Proof.
  unfold deleteKey, fileKey, explorerPrefix.
  destruct (String.eqb currentPath "/"); [split; reflexivity|].
  destruct (Js.endsWith (Js.substring_from 1 currentPath) "/"); simpl.
  - split; reflexivity.
  - split; [|reflexivity]. now rewrite append_assoc.
Qed.

(** X2. For a file shown for an object, the key built from the path and
    the shown name, for requesting a download link and for deleting, is
    the object's own key: always at the root, and below the root whenever
    the slash between the stripped prefix and the name is counted once
    (the prefix ends with it or the rest of the key starts with it, not
    both). The statement is about the key built; a link kept from before
    under the item's id is not built from it. *)
Theorem shown_file_key_is_object_key (currentPath : string)
    (obj : ObjectInfo) (shown : string) :
  fileName currentPath obj = Some shown ->
  (currentPath = "/"
   \/ Js.endsWith (currentPrefix currentPath) "/"
      = negb (Js.startsWith
                (Js.substring_from (String.length (currentPrefix currentPath))
                   (key obj)) "/")) ->
  fileKey currentPath shown = key obj
  /\ deleteKey currentPath shown = key obj.
Proof.
  intros Hn Hc.
  destruct (delete_and_download_keys_agree currentPath shown) as [Hd _].
  enough (H : fileKey currentPath shown = key obj)
    by (split; [exact H | now rewrite Hd]).
  clear Hd. unfold fileName in Hn. unfold fileKey.
  destruct (Js.endsWith (key obj) "/"); [discriminate|].
  unfold currentPrefix in *.
  destruct (String.eqb_spec currentPath "/") as [->|Hne].
  - destruct (Js.includes slash (key obj)); [discriminate|].
    now injection Hn as <-.
  - destruct Hc as [Hc|Hc]; [contradiction|].
    set (cp := Js.substring_from 1 currentPath) in *.
    destruct (Js.startsWith (key obj) cp) eqn:Hs; [|discriminate].
    pose proof (startsWith_decompose _ _ Hs) as Hk.
    set (rel := Js.substring_from (String.length cp) (key obj)) in *.
    destruct (Js.startsWith rel "/") eqn:Hr; simpl in Hc; rewrite Hc; simpl.
    + destruct (Js.includes slash (Js.substring_from 1 rel));
        [discriminate|].
      injection Hn as <-.
      pose proof (startsWith_decompose _ _ Hr) as Hrel.
      etransitivity; [|symmetry; exact Hk].
      rewrite append_assoc. f_equal. symmetry. exact Hrel.
    + destruct (Js.includes slash rel); [discriminate|].
      injection Hn as <-. symmetry. exact Hk.
Qed.

End KeyFacts.

Lemma shown_file_key_is_object_key_witness :
  FileExplorer.fileKey "/photos/2024/" "beach.jpg" = "photos/2024/beach.jpg"
  /\ FileExplorer.deleteKey "/photos/2024/" "beach.jpg"
     = "photos/2024/beach.jpg".
Proof.
  exact (shown_file_key_is_object_key "/photos/2024/"
           (Scenario.object "photos/2024/beach.jpg" None) "beach.jpg"
           eq_refl (or_intror eq_refl)).
Defined.

(** ** The items of a view *)

Lemma string_of_index_inj (i j : nat) :
  Js.string_of_index i = Js.string_of_index j -> i = j.
Proof.
  assert (Hn : forall n, Nat.to_uint n <> Decimal.Nil).
  { intros n H. pose proof (f_equal Nat.of_uint H) as H0.
    rewrite Unsigned.of_to in H0. simpl in H0. subst n. discriminate H. }
  unfold Js.string_of_index. intros H.
  apply (f_equal NilZero.uint_of_string) in H.
  rewrite !NilZero.usu in H by apply Hn.
  injection H as H. now apply Unsigned.to_uint_inj.
Qed.

Lemma endsWith_substring_from (n : nat) (s : string) :
  Js.endsWith s (Js.substring_from n s) = true.
Proof.
  destruct (substring_from_decompose n s) as [a Ha].
  remember (Js.substring_from n s) as q. rewrite Ha.
  apply endsWith_append.
Qed.

Lemma endsWith_trans (s r q : string) :
  Js.endsWith s r = true -> Js.endsWith r q = true ->
  Js.endsWith s q = true.
Proof.
  intros H1 H2.
  apply endsWith_decompose in H1 as [a ->].
  apply endsWith_decompose in H2 as [b ->].
  rewrite <- append_assoc. apply endsWith_append.
Qed.

Lemma endsWith_refl (s : string) : Js.endsWith s s = true.
Proof. exact (endsWith_append "" s). Qed.

Section ViewFacts.

Import S3Service FileExplorer Predicates.

Variable formatFileSize : N -> string.
Variable formatDate : string -> string.

Lemma forEach_Forall {A : Type} (P : FileItem -> Prop)
    (body : list FileItem -> A -> nat -> list FileItem) :
  (forall items x i, Forall P items -> Forall P (body items x i)) ->
  forall l i items, Forall P items -> Forall P (forEach body l i items).
Proof.
  intros Hb l. induction l as [|x r IH]; intros i items H; simpl;
    [exact H|].
  apply IH. now apply Hb.
Qed.

Lemma folderName_no_slash (currentPath folderPrefix n : string) :
  folderName currentPath folderPrefix = Some n ->
  Js.includes slash n = false.
Proof.
  unfold folderName, Js.first. intros H.
  match type of H with
  | hd_error (Js.split slash ?r) = _ =>
      pose proof (split_pieces slash r) as Hall;
      destruct (Js.split slash r) as [|h t]; [discriminate|]
  end.
  injection H as <-. now inversion Hall.
Qed.

Lemma fileName_no_slash (currentPath : string) (obj : ObjectInfo)
    (n : string) :
  fileName currentPath obj = Some n -> Js.includes slash n = false.
Proof.
  unfold fileName.
  destruct (Js.endsWith (key obj) "/"); [discriminate|].
  destruct (String.eqb currentPath "/").
  - destruct (Js.includes slash (key obj)) eqn:E; [discriminate|].
    now intros [= <-].
  - destruct (Js.startsWith (key obj) (currentPrefix currentPath));
      [|discriminate].
    match goal with
    | |- context [negb (Js.includes slash ?c)] =>
        destruct (Js.includes slash c) eqn:E; [discriminate|]
    end.
    now intros [= <-].
Qed.

(** X3. Whatever the path and the listing, every item of the view has a
    name that is not empty and contains no slash, so it can serve as a
    path segment. *)
Theorem item_names_are_segments (currentPath : string)
    (folders : list string) (objects : list ObjectInfo) :
  Forall (fun item => validSegment (name item) = true)
    (convertToFileItems formatFileSize formatDate currentPath folders
       objects).
Proof.
  unfold convertToFileItems.
  apply forEach_Forall; [|apply forEach_Forall; [|constructor]].
  - intros items obj i H. unfold pushObject.
    destruct (fileName currentPath obj) as [n|] eqn:E; [|exact H].
    destruct (Js.truthy n) eqn:Ht; [|exact H].
    apply Forall_app. split; [exact H|].
    constructor; [|constructor]. simpl. unfold validSegment.
    now rewrite Ht, (fileName_no_slash _ _ _ E).
  - intros items fp i H. unfold pushFolder.
    destruct (folderName currentPath fp) as [n|] eqn:E; [|exact H].
    destruct (Js.truthy n) eqn:Ht; [|exact H].
    apply Forall_app. split; [exact H|].
    constructor; [|constructor]. simpl. unfold validSegment.
    now rewrite Ht, (folderName_no_slash _ _ _ E).
Qed.

Lemma idsBelow_weaken (f f' o o' : nat) (items : list FileItem) :
  f <= f' -> o <= o' -> idsBelow f o items -> idsBelow f' o' items.
Proof.
  intros Hf Ho [Hnd Hb]. split; [exact Hnd|].
  intros item Hin. destruct (Hb item Hin) as [[j [Hj E]]|[j [Hj E]]].
  - left. exists j. split; [lia|exact E].
  - right. exists j. split; [lia|exact E].
Qed.

Lemma idsBelow_snoc (f o : nat) (items : list FileItem) (x : FileItem) :
  idsBelow f o items ->
  (id x = "folder-" ++ Js.string_of_index f
   \/ id x = "file-" ++ Js.string_of_index o) ->
  idsBelow (S f) (S o) (items ++ [x])%list
  /\ (id x = "folder-" ++ Js.string_of_index f ->
      idsBelow (S f) o (items ++ [x])%list)
  /\ (id x = "file-" ++ Js.string_of_index o ->
      idsBelow f (S o) (items ++ [x])%list).
Proof.
  intros [Hnd Hb] Hx.
  assert (Hfresh : ~ In (id x) (map id items)).
  { intros Hin. apply in_map_iff in Hin as [y [Hy Hin]].
    destruct (Hb y Hin) as [[j [Hj E]]|[j [Hj E]]];
      rewrite E in Hy; destruct Hx as [Hx|Hx]; rewrite Hx in Hy.
    - simpl in Hy. injection Hy as Hy.
      apply string_of_index_inj in Hy. lia.
    - discriminate Hy.
    - discriminate Hy.
    - simpl in Hy. injection Hy as Hy.
      apply string_of_index_inj in Hy. lia. }
  assert (Hnd' : NoDup (map id (items ++ [x])%list)).
  { rewrite map_app. apply NoDup_app; [exact Hnd| |].
    - constructor; [intros []|constructor].
    - intros a Ha [<-|[]]. now apply Hfresh. }
  assert (Hold : forall f' o', f <= f' -> o <= o' ->
            forall item, In item items ->
              (exists j, j < f' /\ id item = "folder-" ++ Js.string_of_index j)
              \/ (exists j, j < o' /\ id item = "file-" ++ Js.string_of_index j)).
  { intros f' o' Hf Ho item Hin.
    destruct (Hb item Hin) as [[j [Hj E]]|[j [Hj E]]].
    - left. exists j. split; [lia|exact E].
    - right. exists j. split; [lia|exact E]. }
  split; [|split].
  - split; [exact Hnd'|]. intros item Hin.
    apply in_app_or in Hin as [Hin|[<-|[]]]; [apply Hold; auto|].
    destruct Hx as [Hx|Hx]; [left; exists f | right; exists o]; auto.
  - intros E. split; [exact Hnd'|]. intros item Hin.
    apply in_app_or in Hin as [Hin|[<-|[]]]; [apply Hold; auto|].
    left. exists f. auto.
  - intros E. split; [exact Hnd'|]. intros item Hin.
    apply in_app_or in Hin as [Hin|[<-|[]]]; [apply Hold; auto|].
    right. exists o. auto.
Qed.

Lemma folders_idsBelow (currentPath : string) (l : list string)
    (i : nat) (items : list FileItem) :
  idsBelow i 0 items ->
  idsBelow (i + List.length l) 0 (forEach (pushFolder currentPath) l i items).
Proof.
  revert i items. induction l as [|x r IH]; intros i items H; simpl.
  - now rewrite Nat.add_0_r.
  - replace (i + S (List.length r)) with (S i + List.length r) by lia.
    apply IH. unfold pushFolder.
    destruct (folderName currentPath x) as [n|];
      [|eapply idsBelow_weaken; [| |exact H]; lia].
    destruct (Js.truthy n);
      [|eapply idsBelow_weaken; [| |exact H]; lia].
    match goal with
    | |- idsBelow _ _ (items ++ [?it])%list =>
        destruct (idsBelow_snoc i 0 items it H (or_introl eq_refl))
          as [_ [Hf _]]
    end.
    now apply Hf.
Qed.

Lemma objects_idsBelow (currentPath : string) (l : list ObjectInfo)
    (f i : nat) (items : list FileItem) :
  idsBelow f i items ->
  idsBelow f (i + List.length l)
    (forEach (pushObject formatFileSize formatDate currentPath) l i items).
Proof.
  revert i items. induction l as [|x r IH]; intros i items H; simpl.
  - now rewrite Nat.add_0_r.
  - replace (i + S (List.length r)) with (S i + List.length r) by lia.
    apply IH. unfold pushObject.
    destruct (fileName currentPath x) as [n|];
      [|eapply idsBelow_weaken; [| |exact H]; lia].
    destruct (Js.truthy n);
      [|eapply idsBelow_weaken; [| |exact H]; lia].
    match goal with
    | |- idsBelow _ _ (items ++ [?it])%list =>
        destruct (idsBelow_snoc f i items it H (or_intror eq_refl))
          as [_ [_ Ho]]
    end.
    now apply Ho.
Qed.

(** X4. The ids of the items of a view are pairwise different, whatever
    the listing: each is [folder-j] with [j] below the number of common
    prefixes or [file-j] with [j] below the number of objects. *)
Theorem item_ids_distinct (currentPath : string) (folders : list string)
    (objects : list ObjectInfo) :
  idsBelow (List.length folders) (List.length objects)
    (convertToFileItems formatFileSize formatDate currentPath folders
       objects).
Proof.
  unfold convertToFileItems.
  apply (objects_idsBelow currentPath objects (List.length folders) 0).
  apply (folders_idsBelow currentPath folders 0 []).
  split; [constructor|]. intros item [].
Qed.

End ViewFacts.

Section DelimitedListing.

Import S3Service FileExplorer Predicates.

Variable formatFileSize : N -> string.
Variable formatDate : string -> string.

Lemma object_items_names (currentPath : string) (l : list ObjectInfo)
    (index : nat) :
  names (forEach (pushObject formatFileSize formatDate currentPath) l index [])
  = flat_map (shownFileName currentPath) l.
Proof.
  revert index. induction l as [|x r IH]; intros index; simpl;
    [reflexivity|].
  rewrite forEach_pushObject. unfold names in *.
  rewrite map_app, IH. f_equal.
  unfold pushObject, shownFileName.
  destruct (fileName currentPath x) as [n|]; [|reflexivity].
  destruct (Js.truthy n); reflexivity.
Qed.

Lemma currentPath_of_segments (segments : list string) :
  Forall (fun s => validSegment s = true) segments ->
  currentPrefix (pathOfSegments segments) = Spec.toStoragePrefix segments
  /\ String.eqb (pathOfSegments segments) "/"
     = negb (Js.truthy (Spec.toStoragePrefix segments)).
Proof.
  intros Hv. rewrite pathOfSegments_spec. unfold currentPrefix.
  destruct segments as [|s r]; [split; reflexivity|].
  destruct (toStoragePrefix_head (s :: r) ltac:(discriminate) Hv)
    as [Ht _].
  destruct (Spec.toStoragePrefix (s :: r)) as [|c t]; [discriminate|].
  split; reflexivity.
Qed.

Lemma first_segment_of_child (n : string) :
  Js.includes slash n = false ->
  Js.first (Js.split slash (n ++ "/")) = Some n.
Proof.
  intros Hi. change (n ++ "/") with (n ++ String slash "").
  now rewrite split_app, split_without_sep.
Qed.

Lemma folderName_child (segments : list string) (n : string) :
  Forall (fun s => validSegment s = true) segments ->
  validSegment n = true ->
  contributedName (pathOfSegments segments)
    (Spec.toStoragePrefix segments ++ n ++ "/") = [n].
Proof.
  intros Hv Hn. destruct (validSegment_parts n Hn) as [Ht Hi].
  destruct (currentPath_of_segments segments Hv) as [Hcp _].
  unfold contributedName, folderName. rewrite Hcp, startsWith_append.
  rewrite andb_true_r.
  destruct (Js.truthy (Spec.toStoragePrefix segments)) eqn:Hp.
  - rewrite substring_from_append, first_segment_of_child by exact Hi.
    now rewrite Ht.
  - destruct (Spec.toStoragePrefix segments); [|discriminate].
    simpl append. rewrite first_segment_of_child by exact Hi.
    now rewrite Ht.
Qed.

Lemma fileName_child (segments : list string) (obj : ObjectInfo)
    (leaf : string) :
  Forall (fun s => validSegment s = true) segments ->
  validSegment leaf = true ->
  key obj = Spec.toStoragePrefix segments ++ leaf ->
  shownFileName (pathOfSegments segments) obj = [leaf].
Proof.
  intros Hv Hl Hk. destruct (validSegment_parts leaf Hl) as [Ht Hi].
  destruct (currentPath_of_segments segments Hv) as [Hcp Heq].
  unfold shownFileName, fileName. rewrite Hcp, Heq, Hk.
  rewrite (endsWith_slash_segment _ _ Ht Hi).
  destruct (Js.truthy (Spec.toStoragePrefix segments)) eqn:Hp; simpl.
  - rewrite startsWith_append, substring_from_append.
    destruct (validSegment_head leaf Hl) as [c [rest [-> Hc]]].
    simpl Js.startsWith. fold slash. rewrite Hc. simpl.
    simpl in Hi. rewrite Hi. reflexivity.
  - destruct (Spec.toStoragePrefix segments); [|discriminate].
    simpl. rewrite Hi. simpl. now rewrite Ht.
Qed.

(** X5. For a path made of valid segments and a listing as a delimited
    listing of its prefix gives it (common prefixes [prefix + name + /],
    object keys [prefix + name], the names being valid segments), the view
    shows exactly the names of the listing: the folders first, then the
    objects, each in listing order. *)
Theorem view_of_delimited_listing (segments folderNames : list string)
    (objects : list ObjectInfo) :
  Forall (fun s => validSegment s = true) segments ->
  Forall (fun n => validSegment n = true) folderNames ->
  Forall (fun o => exists leaf,
              validSegment leaf = true
              /\ key o = Spec.toStoragePrefix segments ++ leaf) objects ->
  names
    (convertToFileItems formatFileSize formatDate (pathOfSegments segments)
       (map (fun n => Spec.toStoragePrefix segments ++ n ++ "/") folderNames)
       objects)
  = (folderNames
     ++ map (fun o =>
               Js.substring_from
                 (String.length (Spec.toStoragePrefix segments)) (key o))
          objects)%list.
Proof.
  intros Hv Hf Ho. unfold convertToFileItems.
  rewrite forEach_pushObject. unfold names.
  rewrite map_app. f_equal.
  - change (map name ?l) with (names l). rewrite folder_items_names.
    induction Hf as [|n r Hn Hr IH]; [reflexivity|].
    simpl. now rewrite (folderName_child segments n Hv Hn), IH.
  - change (map name ?l) with (names l). rewrite object_items_names.
    induction Ho as [|o r [leaf [Hl Hk]] Hr IH]; [reflexivity|].
    simpl. rewrite (fileName_child segments o leaf Hv Hl Hk), IH.
    now rewrite Hk, substring_from_append.
Qed.

End DelimitedListing.

Lemma view_of_delimited_listing_witness :
  Predicates.names
    (FileExplorer.convertToFileItems Scenario.formatFileSize
       Scenario.formatDate (FileExplorer.pathOfSegments ["photos"])
       (map (fun n => Spec.toStoragePrefix ["photos"] ++ n ++ "/")
          ["2023"; "2024"])
       [Scenario.object "photos/beach.jpg" None])
  = ["2023"; "2024"; "beach.jpg"].
Proof.
  apply (view_of_delimited_listing Scenario.formatFileSize
           Scenario.formatDate ["photos"] ["2023"; "2024"]
           [Scenario.object "photos/beach.jpg" None]).
  - repeat constructor.
  - repeat constructor.
  - constructor; [|constructor]. exists "beach.jpg". split; reflexivity.
Defined.

(** ** Opening folders *)

Section NavigationFacts.

Import S3Service FileExplorer Predicates.

Lemma pathParts_append_slash (a b : string) :
  pathParts (a ++ "/" ++ b) = (pathParts a ++ pathParts b)%list.
Proof.
  unfold pathParts, Js.filter_Boolean.
  change (a ++ "/" ++ b) with (a ++ String slash b).
  now rewrite split_app, filter_app.
Qed.

Lemma pathParts_segment (n : string) :
  validSegment n = true -> pathParts (n ++ "/") = [n].
Proof.
  intros Hn. destruct (validSegment_parts n Hn) as [Ht Hi].
  change (n ++ "/") with (n ++ "/" ++ "").
  rewrite pathParts_append_slash. unfold pathParts, Js.filter_Boolean.
  rewrite split_without_sep by exact Hi. simpl. now rewrite Ht.
Qed.

Lemma pathParts_folderPath (currentPath n : string) :
  validSegment n = true ->
  pathParts (folderPath currentPath n) = (pathParts currentPath ++ [n])%list.
Proof.
  intros Hn. unfold folderPath.
  destruct (String.eqb_spec currentPath "/") as [->|_].
  - change ("/" ++ n ++ "/") with ("" ++ "/" ++ n ++ "/").
    rewrite pathParts_append_slash, pathParts_segment by exact Hn.
    reflexivity.
  - destruct (Js.endsWith currentPath "/") eqn:He.
    + apply endsWith_decompose in He as [q ->]. simpl append.
      rewrite append_assoc.
      change (q ++ "/") with (q ++ "/" ++ "").
      rewrite !pathParts_append_slash, pathParts_segment by exact Hn.
      change (pathParts "") with (@nil string).
      now rewrite app_nil_r.
    + rewrite pathParts_append_slash, pathParts_segment by exact Hn.
      reflexivity.
Qed.

Lemma pushBreadcrumbs_snoc (parts : list string) (n cur : string)
    (crumbs : list Breadcrumb) :
  pushBreadcrumbs (parts ++ [n]) cur crumbs
  = (pushBreadcrumbs parts cur crumbs
     ++ [ {| crumb_name := n;
             crumb_path := cur ++ Spec.toStoragePrefix (parts ++ [n]) |} ])%list.
Proof.
  revert cur crumbs. induction parts as [|p r IH]; intros cur crumbs.
  - reflexivity.
  - change ((p :: r) ++ [n])%list with (p :: (r ++ [n]))%list.
    cbn [pushBreadcrumbs]. rewrite IH.
    rewrite (toStoragePrefix_cons p (r ++ [n])).
    now rewrite !append_assoc.
Qed.

(** X6. Opening a folder with a valid name appends that name to the parts
    of the path, whatever the path, and appends one entry to the
    breadcrumbs: the folder's name with the path of all parts. *)
Theorem opening_a_folder_appends_a_part (bucketName : option string)
    (currentPath n : string) :
  validSegment n = true ->
  pathParts (folderPath currentPath n) = (pathParts currentPath ++ [n])%list
  /\ breadcrumbs bucketName (folderPath currentPath n)
     = (breadcrumbs bucketName currentPath
        ++ [ {| crumb_name := n;
                crumb_path :=
                  pathOfSegments (pathParts currentPath ++ [n]) |} ])%list.
Proof.
  intros Hn. split; [now apply pathParts_folderPath|].
  unfold breadcrumbs. rewrite pathParts_folderPath by exact Hn.
  rewrite pushBreadcrumbs_snoc. now rewrite pathOfSegments_spec.
Qed.

(** X7. The view and the navigation fit together: under a path of valid
    segments, the common prefix [prefix + name + /] is shown as the folder
    [name], and opening that folder requests exactly this common prefix
    from the backend. *)
Theorem opened_folder_lists_its_common_prefix (segments : list string)
    (n : string) :
  Forall (fun s => validSegment s = true) segments ->
  validSegment n = true ->
  contributedName (pathOfSegments segments)
    (Spec.toStoragePrefix segments ++ n ++ "/") = [n]
  /\ storagePrefix (folderPath (pathOfSegments segments) n)
     = Spec.toStoragePrefix segments ++ n ++ "/".
Proof.
  intros Hv Hn. split; [now apply folderName_child|].
  replace (folderPath (pathOfSegments segments) n)
    with (pathOfSegments (segments ++ [n])).
  - rewrite pathOfSegments_spec, storagePrefix_of_segments.
    + apply toStoragePrefix_snoc.
    + apply Forall_app. split; [exact Hv|]. now constructor.
  - unfold pathOfSegments. now rewrite fold_left_app.
Qed.

End NavigationFacts.

Lemma opening_a_folder_appends_a_part_witness :
  FileExplorer.pathParts (FileExplorer.folderPath "/photos" "2024")
  = ["photos"; "2024"].
Proof.
  exact (proj1 (opening_a_folder_appends_a_part None "/photos" "2024"
                  eq_refl)).
Defined.

Lemma opened_folder_lists_its_common_prefix_witness :
  FileExplorer.storagePrefix
    (FileExplorer.folderPath (FileExplorer.pathOfSegments ["photos"]) "2024")
  = "photos/2024/".
Proof.
  apply (opened_folder_lists_its_common_prefix ["photos"] "2024").
  - repeat constructor.
  - reflexivity.
Defined.

(** ** Order of the sorted items *)

Section SortOrderFacts.

Variable A : Type.
Variable compareFn : A -> A -> Z.
Variable P : A -> Prop.

Hypothesis compare_anti :
  forall x y, P x -> P y -> (0 < compareFn x y)%Z -> (compareFn y x <= 0)%Z.
Hypothesis compare_trans :
  forall x y z, P x -> P y -> P z ->
    (compareFn x y <= 0)%Z -> (compareFn y z <= 0)%Z ->
    (compareFn x z <= 0)%Z.

Lemma insert_sortedBy (x : A) (l : list A) :
  P x -> Forall P l ->
  Predicates.sortedBy compareFn l ->
  Predicates.sortedBy compareFn (Js.insert compareFn x l).
Proof.
  intros Hx. induction l as [|y r IH]; intros HP Hs; simpl.
  - split; [constructor|exact I].
  - inversion HP as [|? ? Hy Hr]; subst. destruct Hs as [Hyr Hsr].
    destruct (0 <? compareFn x y)%Z eqn:Hc.
    + apply Z.ltb_lt in Hc. simpl. split; [|now apply IH].
      apply insert_Forall; [|exact Hyr]. now apply compare_anti.
    + apply Z.ltb_ge in Hc. simpl. split; [|now split].
      constructor; [exact Hc|].
      rewrite Forall_forall in *. intros z Hz.
      apply (compare_trans x y z); auto.
Qed.

Lemma sort_sortedBy (l : list A) :
  Forall P l -> Predicates.sortedBy compareFn (Js.sort compareFn l).
Proof.
  induction l as [|x r IH]; intros HP; simpl; [exact I|].
  inversion HP as [|? ? Hx Hr]; subst.
  apply insert_sortedBy; auto.
  eapply Permutation_Forall; [apply sort_perm|exact Hr].
Qed.

End SortOrderFacts.

Lemma sortedBy_positions {A : Type} (compareFn : A -> A -> Z) (l : list A) :
  Predicates.sortedBy compareFn l ->
  forall i j a b, i < j ->
    nth_error l i = Some a -> nth_error l j = Some b ->
    (compareFn a b <= 0)%Z.
Proof.
  induction l as [|x r IH]; intros Hs i j a b Hij Hi Hj.
  - destruct i; discriminate.
  - destruct Hs as [Hx Hr]. destruct j as [|j]; [lia|].
    destruct i as [|i]; simpl in Hi, Hj.
    + injection Hi as <-. rewrite Forall_forall in Hx.
      apply Hx. eapply nth_error_In; eauto.
    + apply (IH Hr i j); auto. lia.
Qed.

Lemma sort_of_adjacentOrdered
    (compareFn : FileExplorer.FileItem -> FileExplorer.FileItem -> Z)
    (l : list FileExplorer.FileItem) :
  Predicates.adjacentOrdered compareFn l -> Js.sort compareFn l = l.
Proof.
  induction l as [|x r IH]; intros Hs; [reflexivity|].
  destruct Hs as [Hx Hr]. simpl. rewrite (IH Hr).
  destruct r as [|y r']; [reflexivity|].
  simpl. apply Z.ltb_ge in Hx. now rewrite Hx.
Qed.

Lemma sortedBy_adjacentOrdered
    (compareFn : FileExplorer.FileItem -> FileExplorer.FileItem -> Z)
    (l : list FileExplorer.FileItem) :
  Predicates.sortedBy compareFn l -> Predicates.adjacentOrdered compareFn l.
Proof.
  induction l as [|x r IH]; intros Hs; [exact I|].
  destruct Hs as [Hx Hr]. simpl. split; [|now apply IH].
  destruct r as [|y r']; [exact I|]. now inversion Hx.
Qed.

Lemma ordinalCompare_consistent :
  Predicates.consistentCollation Scenario.ordinalCompare.
Proof.
  unfold Predicates.consistentCollation, Scenario.ordinalCompare. split.
  - intros a b. rewrite (String.compare_antisym b a).
    destruct (String.compare a b); simpl; lia.
  - intros a b c.
    destruct (String.compare a b) eqn:Eab; try lia;
      destruct (String.compare b c) eqn:Ebc; try lia; intros _ _.
    + apply String.compare_eq_iff in Eab, Ebc. subst.
      replace (String.compare c c) with Eq; [lia|].
      symmetry. now apply OrderedTypeEx.String_as_OT.cmp_eq.
    + apply String.compare_eq_iff in Eab. subst. rewrite Ebc. lia.
    + apply String.compare_eq_iff in Ebc. subst. rewrite Eab. lia.
    + apply OrderedTypeEx.String_as_OT.cmp_lt in Eab, Ebc.
      pose proof (OrderedTypeEx.String_as_OT.lt_trans _ _ _ Eab Ebc) as H.
      apply OrderedTypeEx.String_as_OT.cmp_lt in H.
      unfold OrderedTypeEx.String_as_OT.cmp in H. rewrite H. lia.
Qed.

Section OrderedViewFacts.

Import FileExplorer Predicates.

Variable localeCompare : string -> string -> Z.

Lemma comparable_key (sortBy : SortField) (x : FileItem) :
  comparable sortBy x -> sortBy <> by_name ->
  sortKey sortBy x = Some (keyOf sortBy x)
  /\ Js.truthy (keyOf sortBy x) = true.
Proof.
  intros [->|Hm] Hne; [congruence|].
  unfold missing, keyOf in *. apply negb_false_iff in Hm.
  destruct (sortKey sortBy x) as [k|]; [|discriminate].
  now split.
Qed.

Lemma compareItems_same_type (sortBy : SortField) (d : SortDirection)
    (a b : FileItem) :
  type a = type b -> comparable sortBy a -> comparable sortBy b ->
  compareItems localeCompare sortBy d a b
  = match d with
    | asc => localeCompare (keyOf sortBy a) (keyOf sortBy b)
    | desc => localeCompare (keyOf sortBy b) (keyOf sortBy a)
    end.
Proof.
  intros Ht Ha Hb. unfold compareItems.
  replace (ItemType_eqb (type a) (type b)) with true
    by (rewrite Ht; now destruct (type b)).
  simpl. destruct sortBy; [reflexivity| | |];
    (destruct (comparable_key _ a Ha ltac:(discriminate)) as [Ea Ta];
     destruct (comparable_key _ b Hb ltac:(discriminate)) as [Eb Tb];
     simpl in Ea, Eb; rewrite Ea, Eb; unfold compareField;
     now rewrite Ta, Tb).
Qed.

Hypothesis collation : consistentCollation localeCompare.

Lemma compareItems_anti (sortBy : SortField) (d : SortDirection)
    (a b : FileItem) :
  comparable sortBy a -> comparable sortBy b ->
  (0 < compareItems localeCompare sortBy d a b)%Z ->
  (compareItems localeCompare sortBy d b a <= 0)%Z.
Proof.
  intros Ha Hb. destruct collation as [Hanti _].
  destruct (type a) eqn:Ta, (type b) eqn:Tb;
    try (rewrite !compareItems_same_type by (auto; congruence);
         destruct d; apply Hanti);
    rewrite !compareItems_mixed by congruence; rewrite Ta, Tb; lia.
Qed.

Lemma compareItems_trans (sortBy : SortField) (d : SortDirection)
    (a b c : FileItem) :
  comparable sortBy a -> comparable sortBy b -> comparable sortBy c ->
  (compareItems localeCompare sortBy d a b <= 0)%Z ->
  (compareItems localeCompare sortBy d b c <= 0)%Z ->
  (compareItems localeCompare sortBy d a c <= 0)%Z.
Proof.
  intros Ha Hb Hc. destruct collation as [_ Htrans].
  destruct (type a) eqn:Ta, (type b) eqn:Tb, (type c) eqn:Tc;
    try (rewrite !compareItems_same_type by (auto; congruence);
         destruct d; intros H1 H2; eapply Htrans; eauto);
    try (rewrite (compareItems_mixed localeCompare sortBy d a b)
           by congruence; rewrite Ta; lia);
    try (rewrite (compareItems_mixed localeCompare sortBy d b c)
           by congruence; rewrite Tb; lia);
    intros _ _; rewrite compareItems_mixed by congruence; rewrite Ta; lia.
Qed.

Lemma sortedFiles_sortedBy (sortBy : SortField) (d : SortDirection)
    (fileItems : list FileItem) :
  Forall (comparable sortBy) fileItems ->
  sortedBy (compareItems localeCompare sortBy d)
    (sortedFiles localeCompare sortBy d fileItems).
Proof.
  intros Hc. unfold sortedFiles.
  apply (sort_sortedBy FileItem _ (comparable sortBy)); auto.
  - intros x y. apply compareItems_anti.
  - intros x y z. apply compareItems_trans.
Qed.

(** X8. With a collation that orders, and items that all have the field
    sorted by (any items when sorting by name), the sorted list is in
    order: of two items of the same kind the earlier one is not after the
    later one in the collation of the field, with the roles exchanged for
    the descending direction. *)
Theorem sortedFiles_in_collation_order (sortBy : SortField)
    (sortDirection : SortDirection) (fileItems : list FileItem) :
  Forall (comparable sortBy) fileItems ->
  forall i j a b,
    i < j ->
    nth_error (sortedFiles localeCompare sortBy sortDirection fileItems) i
      = Some a ->
    nth_error (sortedFiles localeCompare sortBy sortDirection fileItems) j
      = Some b ->
    type a = type b ->
    (match sortDirection with
     | asc => localeCompare (keyOf sortBy a) (keyOf sortBy b)
     | desc => localeCompare (keyOf sortBy b) (keyOf sortBy a)
     end <= 0)%Z.
Proof.
  intros Hc i j a b Hij Hi Hj Ht.
  assert (Hall : Forall (comparable sortBy)
                   (sortedFiles localeCompare sortBy sortDirection fileItems)).
  { eapply Permutation_Forall; [apply sort_perm|exact Hc]. }
  rewrite Forall_forall in Hall.
  rewrite <- (compareItems_same_type sortBy sortDirection a b Ht).
  - eapply sortedBy_positions;
      [apply sortedFiles_sortedBy; exact Hc | exact Hij | exact Hi | exact Hj].
  - apply Hall. eapply nth_error_In; eauto.
  - apply Hall. eapply nth_error_In; eauto.
Qed.

(** X10. Under the same conditions sorting again changes nothing. *)
Theorem sortedFiles_idempotent (sortBy : SortField)
    (sortDirection : SortDirection) (fileItems : list FileItem) :
  Forall (comparable sortBy) fileItems ->
  sortedFiles localeCompare sortBy sortDirection
    (sortedFiles localeCompare sortBy sortDirection fileItems)
  = sortedFiles localeCompare sortBy sortDirection fileItems.
Proof.
  intros Hc. unfold sortedFiles at 1.
  apply sort_of_adjacentOrdered, sortedBy_adjacentOrdered.
  now apply sortedFiles_sortedBy.
Qed.

Lemma adjacentOrdered_sortedBy (sortBy : SortField) (d : SortDirection)
    (l : list FileItem) :
  Forall (comparable sortBy) l ->
  adjacentOrdered (compareItems localeCompare sortBy d) l ->
  sortedBy (compareItems localeCompare sortBy d) l.
Proof.
  induction l as [|x r IH]; intros Hc Ha; [exact I|].
  inversion Hc as [|? ? Hx Hr]; subst.
  destruct Ha as [Hxy Har]. specialize (IH Hr Har).
  split; [|exact IH].
  destruct r as [|y r']; [constructor|].
  inversion Hr as [|? ? Hy Hr']; subst.
  destruct IH as [Hyr _].
  constructor; [exact Hxy|].
  rewrite Forall_forall in *. intros z Hz.
  apply (compareItems_trans sortBy d x y z); auto.
Qed.

(** X9. With a collation that orders, and items that all have the field
    sorted by, a list in which no item is directly followed by one that
    the comparator puts before it is in order throughout, and it is
    returned as it is. *)
Theorem ordered_items_stay_as_they_are (sortBy : SortField)
    (sortDirection : SortDirection) (fileItems : list FileItem) :
  Forall (comparable sortBy) fileItems ->
  adjacentOrdered (compareItems localeCompare sortBy sortDirection)
    fileItems ->
  sortedBy (compareItems localeCompare sortBy sortDirection) fileItems
  /\ sortedFiles localeCompare sortBy sortDirection fileItems = fileItems.
Proof.
  intros Hc Ha. split.
  - now apply adjacentOrdered_sortedBy.
  - now apply sort_of_adjacentOrdered.
Qed.

End OrderedViewFacts.

Lemma sortedFiles_in_collation_order_witness :
  (Scenario.ordinalCompare
     (Predicates.keyOf FileExplorer.by_name Scenario.undated)
     (Predicates.keyOf FileExplorer.by_name Scenario.dated) <= 0)%Z.
Proof.
  apply (sortedFiles_in_collation_order Scenario.ordinalCompare
           ordinalCompare_consistent FileExplorer.by_name FileExplorer.asc
           [Scenario.dated; Scenario.docs; Scenario.undated]
           ltac:(repeat constructor; now left)
           1 2 Scenario.undated Scenario.dated);
    [lia | reflexivity | reflexivity | reflexivity].
Defined.

Lemma sortedFiles_idempotent_witness :
  FileExplorer.sortedFiles Scenario.ordinalCompare FileExplorer.by_name
    FileExplorer.desc
    (FileExplorer.sortedFiles Scenario.ordinalCompare FileExplorer.by_name
       FileExplorer.desc [Scenario.undated; Scenario.docs; Scenario.dated])
  = FileExplorer.sortedFiles Scenario.ordinalCompare FileExplorer.by_name
      FileExplorer.desc [Scenario.undated; Scenario.docs; Scenario.dated].
Proof.
  apply (sortedFiles_idempotent Scenario.ordinalCompare
           ordinalCompare_consistent FileExplorer.by_name FileExplorer.desc
           [Scenario.undated; Scenario.docs; Scenario.dated]).
  repeat constructor; now left.
Defined.

Lemma ordered_items_stay_as_they_are_witness :
  FileExplorer.sortedFiles Scenario.ordinalCompare FileExplorer.by_name
    FileExplorer.asc [Scenario.docs; Scenario.undated; Scenario.dated]
  = [Scenario.docs; Scenario.undated; Scenario.dated].
Proof.
  apply (ordered_items_stay_as_they_are Scenario.ordinalCompare
           ordinalCompare_consistent FileExplorer.by_name FileExplorer.asc
           [Scenario.docs; Scenario.undated; Scenario.dated]).
  - repeat constructor; now left.
  - simpl. repeat split; vm_compute; discriminate.
Defined.

(** ** Kinds of objects and letter case *)

Lemma lower_ascii_idempotent (a : ascii) :
  Js.lower_ascii (Js.lower_ascii a) = Js.lower_ascii a.
Proof. destruct a as [[] [] [] [] [] [] [] []]; reflexivity. Qed.

Lemma toLowerCase_idempotent (s : string) :
  Js.toLowerCase (Js.toLowerCase s) = Js.toLowerCase s.
Proof.
  induction s as [|a r IH]; simpl; [reflexivity|].
  now rewrite lower_ascii_idempotent, IH.
Qed.

Lemma split_toLowerCase (s : string) :
  Js.split dot (Js.toLowerCase s) = map Js.toLowerCase (Js.split dot s).
Proof.
  induction s as [|a r IH]; simpl; [reflexivity|].
  rewrite lower_ascii_dot, IH.
  destruct (Ascii.eqb a dot); [reflexivity|].
  destruct (Js.split dot r); reflexivity.
Qed.

Lemma pop_map (f : string -> string) (l : list string) :
  Js.pop (map f l) = option_map f (Js.pop l).
Proof.
  induction l as [|x r IH]; [reflexivity|].
  destruct r as [|y r']; [reflexivity|]. exact IH.
Qed.

Lemma extension_toLowerCase (filename : string) :
  S3Service.extension (Js.toLowerCase filename)
  = S3Service.extension filename.
Proof.
  unfold S3Service.extension. rewrite split_toLowerCase, pop_map.
  destruct (Js.pop (Js.split dot filename)); simpl; [|reflexivity].
  now rewrite toLowerCase_idempotent.
Qed.

Section KindFacts.

Import S3Service.

(** X11. Names that differ only in the case of their letters are looked up
    alike: they have the same extension and content type, and objects
    with such keys have the same icon and are images, videos or audio
    alike. *)
Theorem lookups_ignore_letter_case (o1 o2 : ObjectInfo) :
  Js.toLowerCase (key o1) = Js.toLowerCase (key o2) ->
  extension (key o1) = extension (key o2)
  /\ getContentType (key o1) = getContentType (key o2)
  /\ (is_folder o1 = is_folder o2 -> getFileIcon o1 = getFileIcon o2)
  /\ isImage o1 = isImage o2
  /\ isVideo o1 = isVideo o2
  /\ isAudio o1 = isAudio o2.
Proof.
  intros H.
  assert (E : extension (key o1) = extension (key o2)).
  { rewrite <- (extension_toLowerCase (key o1)), H.
    apply extension_toLowerCase. }
  unfold getContentType, getFileIcon, isImage, isVideo, isAudio.
  rewrite E. repeat split. now intros ->.
Qed.

Lemma kinds_exclusive_key (k : string) :
  let img := Js.array_includes
               ["jpg"; "jpeg"; "png"; "gif"; "bmp"; "svg"; "webp"] k in
  let vid := Js.array_includes
               ["mp4"; "avi"; "mov"; "wmv"; "flv"; "webm"] k in
  let aud := Js.array_includes ["mp3"; "wav"; "flac"; "aac"; "ogg"] k in
  (img = true -> vid = false /\ aud = false)
  /\ (vid = true -> aud = false).
Proof.
  cbv zeta. unfold Js.array_includes. split.
  - intros H. apply existsb_exists in H as [x [Hin Hx]].
    apply String.eqb_eq in Hx. subst x.
    simpl in Hin.
    repeat (destruct Hin as [<-|Hin]; [split; reflexivity|]).
    destruct Hin.
  - intros H. apply existsb_exists in H as [x [Hin Hx]].
    apply String.eqb_eq in Hx. subst x.
    simpl in Hin.
    repeat (destruct Hin as [<-|Hin]; [reflexivity|]).
    destruct Hin.
Qed.

(** X12. No object is of two kinds: of [isImage], [isVideo] and [isAudio]
    at most one holds. *)
Theorem kinds_exclusive (objectInfo : ObjectInfo) :
  (isImage objectInfo = true ->
   isVideo objectInfo = false /\ isAudio objectInfo = false)
  /\ (isVideo objectInfo = true -> isAudio objectInfo = false).
Proof.
  unfold isImage, isVideo, isAudio.
  apply (kinds_exclusive_key (Js.or_else (extension (key objectInfo)) "")).
Qed.

Lemma mime_family_key (k mime : string) :
  match get_property mimeTypes k with
  | Some v => if value_truthy v then v else JsString defaultContentType
  | None => JsString defaultContentType
  end = JsString mime ->
  (Js.startsWith mime "image/" = true ->
   Js.array_includes
     ["jpg"; "jpeg"; "png"; "gif"; "bmp"; "svg"; "webp"] k = true)
  /\ (Js.startsWith mime "video/" = true ->
      Js.array_includes ["mp4"; "avi"; "mov"; "wmv"; "flv"; "webm"] k = true)
  /\ (Js.startsWith mime "audio/" = true ->
      Js.array_includes ["mp3"; "wav"; "flac"; "aac"; "ogg"] k = true).
Proof.
  unfold get_property, mimeTypes. cbn [own_property].
  repeat match goal with
         | |- context [String.eqb ?a k] =>
             destruct (String.eqb_spec a k);
               [subst k; simpl; intros [= <-];
                repeat split; (reflexivity || discriminate)
               |cbv beta iota]
         end.
  destruct (inherited k); simpl; [intros H; discriminate H|].
  intros [= <-]. repeat split; discriminate.
Qed.

(** X13. The content type and the kind agree: a name whose content type is
    in the [image/], [video/] or [audio/] family belongs to an object that
    [isImage], [isVideo] or [isAudio] accepts. *)
Theorem content_type_family_implies_kind (objectInfo : ObjectInfo)
    (mime : string) :
  getContentType (key objectInfo) = JsString mime ->
  (Js.startsWith mime "image/" = true -> isImage objectInfo = true)
  /\ (Js.startsWith mime "video/" = true -> isVideo objectInfo = true)
  /\ (Js.startsWith mime "audio/" = true -> isAudio objectInfo = true).
Proof.
  unfold getContentType, isImage, isVideo, isAudio.
  apply mime_family_key.
Qed.

End KindFacts.

Lemma lookups_ignore_letter_case_witness :
  S3Service.getContentType "Holiday.JPG" = S3Service.getContentType "holiday.jpg".
Proof.
  exact (proj1 (proj2 (lookups_ignore_letter_case
    (Scenario.object "Holiday.JPG" None) (Scenario.object "holiday.jpg" None)
    eq_refl))).
Defined.

Lemma kinds_exclusive_witness :
  S3Service.isVideo (Scenario.object "clip.webp" None) = false.
Proof.
  exact (proj1 (proj1 (kinds_exclusive (Scenario.object "clip.webp" None))
                  eq_refl)).
Defined.

Lemma content_type_family_implies_kind_witness :
  S3Service.isAudio (Scenario.object "song.mp3" None) = true.
Proof.
  exact (proj2 (proj2 (content_type_family_implies_kind
    (Scenario.object "song.mp3" None) "audio/mpeg" eq_refl)) eq_refl).
Defined.

(** ** The list request *)

Section RequestFacts.

Import Settings S3Service.

Lemma or_null_truthy (o : option string) (s : string) :
  or_null o = Some s -> Js.truthy s = true /\ o = Some s.
Proof.
  unfold or_null. destruct o as [x|]; [|discriminate].
  destruct (Js.truthy x) eqn:E; [|discriminate].
  intros [= <-]. now split.
Qed.

Lemma normalizePrefix_trailing (prefix : option string) (p : string) :
  or_null (normalizePrefix prefix) = Some p ->
  Js.truthy p = true /\ Js.endsWith p "/" = true.
Proof.
  intros H. apply or_null_truthy in H as [Ht H]. split; [exact Ht|].
  unfold normalizePrefix in H. destruct prefix as [q|]; [|discriminate].
  destruct (Js.truthy q) eqn:Hq; [|congruence].
  remember (if Js.startsWith q "/" then Js.substring_from 1 q else q)
    as p1 eqn:E1.
  clear E1 Hq q.
  destruct (Js.truthy p1) eqn:H1; cbn [andb] in H.
  - destruct (Js.endsWith p1 "/") eqn:He; cbn [negb] in H;
      injection H as <-; [exact He | apply endsWith_append].
  - injection H as <-. congruence.
Qed.

(** X14. Whatever its arguments, [listObjects] sends exactly one request and
    hands back the backend's answer, a page or a rejection, as it is. The
    request never carries an empty string or a zero: a prefix, delimiter
    or continuation token is sent only when not empty, a key limit only
    when not zero, and a prefix that is sent ends with a slash. *)
Theorem listObjects_request_shape (backend : Backend)
    (connection : ConnectionConfig) (bucketName : string)
    (prefix delimiter : option string) (maxKeys : option N)
    (continuationToken : option string) (log : list ListRequest) :
  exists request,
    listObjects backend connection bucketName prefix delimiter maxKeys
      continuationToken log
    = (backend request, (log ++ [request])%list)
    /\ connectionConfig request = convertToRust.connection connection
    /\ bucket request = bucketName
    /\ (forall p, req_prefix request = Some p ->
          Js.truthy p = true /\ Js.endsWith p "/" = true)
    /\ (forall d, S3Service.delimiter request = Some d ->
          Js.truthy d = true /\ delimiter = Some d)
    /\ S3Service.maxKeys request <> Some 0%N
    /\ (forall t, S3Service.continuationToken request = Some t ->
          Js.truthy t = true /\ continuationToken = Some t).
Proof.
  exists {| connectionConfig := convertToRust.connection connection;
            bucket := bucketName;
            req_prefix := or_null (normalizePrefix prefix);
            S3Service.delimiter := or_null delimiter;
            S3Service.maxKeys := or_null_number maxKeys;
            S3Service.continuationToken := or_null continuationToken |}.
  split; [|split; [|split; [|split; [|split; [|split]]]]].
  - unfold listObjects, try_catch, invoke, throw.
    match goal with
    | |- context [backend ?r] => destruct (backend r); reflexivity
    end.
  - reflexivity.
  - reflexivity.
  - cbn [req_prefix]. apply normalizePrefix_trailing.
  - cbn [S3Service.delimiter]. apply or_null_truthy.
  - cbn [S3Service.maxKeys]. unfold or_null_number.
    destruct maxKeys as [n|]; [|discriminate].
    destruct (N.eqb_spec n 0); [discriminate|congruence].
  - cbn [S3Service.continuationToken]. apply or_null_truthy.
Qed.

End RequestFacts.

(** ** The settings service *)

Section ServiceFacts.

Import Settings SettingsService.

Variable number : Type.
Variable BackendState : Type.
Variable respond :
  BackendState -> Command number
  -> (string + RustAppSettings number) * BackendState.

Lemma settings_from_to (s : AppSettings number) :
  convertFromRust.settings (convertToRust.settings s) = s.
Proof.
  destruct s as [v [] conns [] [] []].
  unfold convertFromRust.settings, convertToRust.settings; simpl.
  now rewrite connections_from_to.
Qed.

Lemma call_fetch (u : Update number) (w : World number BackendState) :
  call respond u w = fetch respond (commandOf u) w.
Proof. destruct u; reflexivity. Qed.

Lemma fetch_success (c : Command number) (w : World number BackendState)
    (rust : RustAppSettings number) (b' : BackendState) :
  respond (backend w) c = (inr rust, b') ->
  fetch respond c w
  = (inr (convertFromRust.settings rust),
     {| initialized := initialized w;
        settings := Some (convertFromRust.settings rust);
        listeners := listeners w;
        backend := b';
        invoked := (invoked w ++ [c])%list;
        delivered :=
          (delivered w
           ++ map (fun l => (l, convertFromRust.settings rust))
                (listeners w))%list |}).
Proof. intros H. unfold fetch, invoke. now rewrite H. Qed.

Lemma fetch_failure (c : Command number) (w : World number BackendState)
    (error : string) (b' : BackendState) :
  respond (backend w) c = (inl error, b') ->
  fetch respond c w
  = (inl error,
     {| initialized := initialized w; settings := settings w;
        listeners := listeners w; backend := b';
        invoked := (invoked w ++ [c])%list;
        delivered := delivered w |}).
Proof. intros H. unfold fetch, invoke. now rewrite H. Qed.

Lemma existsb_eqb_In (l : nat) (ls : list nat) :
  existsb (Nat.eqb l) ls = true <-> In l ls.
Proof.
  rewrite existsb_exists. split.
  - intros [x [Hin Hx]]. apply Nat.eqb_eq in Hx. now subst.
  - intros Hin. exists l. split; [exact Hin|apply Nat.eqb_refl].
Qed.

Lemma callsTo_each (l : Listener) (s : AppSettings number)
    (ls : list Listener) :
  NoDup ls ->
  callsTo l (map (fun x => (x, s)) ls)
  = if existsb (Nat.eqb l) ls then [(l, s)] else [].
Proof.
  induction 1 as [|x r Hx Hr IH]; [reflexivity|].
  simpl. destruct (Nat.eqb_spec l x) as [->|Hne]; simpl.
  - rewrite IH.
    destruct (existsb (Nat.eqb x) r) eqn:E; [|reflexivity].
    apply existsb_eqb_In in E. contradiction.
  - exact IH.
Qed.

Lemma fetch_invariant (c : Command number) (w : World number BackendState) :
  invariant w -> invariant (snd (fetch respond c w)).
Proof.
  intros [Hn [Hi Hs]].
  destruct (respond (backend w) c) as [[error|rust] b'] eqn:E.
  - rewrite (fetch_failure _ _ _ _ E). repeat split; simpl; auto.
    intros _ H. now apply app_eq_nil in H as [_ H].
  - rewrite (fetch_success _ _ _ _ E). repeat split; simpl; auto.
    + intros _. discriminate.
    + intros _ H. now apply app_eq_nil in H as [_ H].
Qed.

Lemma initialize_invariant (w : World number BackendState) :
  invariant w -> invariant (snd (initialize respond w)).
Proof.
  intros Hinv. pose proof Hinv as [Hn [Hi Hs]]. unfold initialize.
  assert (Hslow : invariant
    (snd (match invoke respond (init_settings number) w with
          | (inr rustSettings, w1) =>
              (inr (convertFromRust.settings rustSettings),
               notifyListeners
                 {| initialized := true;
                    settings := Some (convertFromRust.settings rustSettings);
                    listeners := listeners w1; backend := backend w1;
                    invoked := invoked w1; delivered := delivered w1 |})
          | (inl error, w1) => (inl error, w1)
          end))).
  { unfold invoke.
    destruct (respond (backend w) (init_settings number))
      as [[error|rust] b'].
    - repeat split; simpl; auto.
      intros _ H. now apply app_eq_nil in H as [_ H].
    - repeat split; simpl; auto.
      + intros _. discriminate.
      + intros _ H. now apply app_eq_nil in H as [_ H]. }
  clear Hn Hi Hs.
  destruct (initialized w); [|exact Hslow].
  destruct (settings w); [|exact Hslow].
  exact Hinv.
Qed.

Lemma step_invariant (w : World number BackendState)
    (op : Operation number) :
  invariant w -> invariant (step respond w op).
Proof.
  intros H. destruct op as [| |u|l|l]; simpl.
  - now apply initialize_invariant.
  - unfold getSettings. destruct (negb (initialized w));
      [now apply initialize_invariant | now apply fetch_invariant].
  - rewrite call_fetch. now apply fetch_invariant.
  - destruct H as [Hn [Hi Hs]]. repeat split; simpl; auto.
    destruct (existsb (Nat.eqb l) (listeners w)) eqn:E; [exact Hn|].
    apply NoDup_app; [exact Hn|repeat constructor; intros []|].
    intros a Ha [<-|[]].
    apply existsb_eqb_In in Ha. congruence.
  - destruct H as [Hn [Hi Hs]]. repeat split; simpl; auto.
    now apply NoDup_filter.
Qed.

Lemma reachable_invariant (w : World number BackendState) :
  reachable respond w -> invariant w.
Proof.
  intros [ops [b ->]]. unfold run.
  assert (H0 : invariant (@fresh number BackendState b)).
  { repeat split; simpl; [constructor|discriminate|congruence]. }
  revert H0. generalize (@fresh number BackendState b).
  induction ops as [|op r IH]; intros w H; simpl; [exact H|].
  apply IH. now apply step_invariant.
Qed.

(** X15. In every world that a fresh service can reach, a method that
    changes the settings and gets an answer stores the converted answer,
    returns it, and calls each subscribed listener exactly once with it
    and nobody else; when the backend rejects the command, the rejection
    is passed on and the stored settings, the listeners and the calls
    made stay as they were. *)
Theorem change_notifies_each_listener_once
    (w : World number BackendState) (u : Update number) :
  reachable respond w ->
  (forall rust b',
      respond (backend w) (commandOf u) = (inr rust, b') ->
      fst (call respond u w) = inr (convertFromRust.settings rust)
      /\ getCurrentSettings (snd (call respond u w))
         = Some (convertFromRust.settings rust)
      /\ listeners (snd (call respond u w)) = listeners w
      /\ exists calls,
          delivered (snd (call respond u w)) = (delivered w ++ calls)%list
          /\ forall l,
              callsTo l calls
              = if existsb (Nat.eqb l) (listeners w)
                then [(l, convertFromRust.settings rust)] else [])
  /\ (forall error b',
        respond (backend w) (commandOf u) = (inl error, b') ->
        fst (call respond u w) = inl error
        /\ getCurrentSettings (snd (call respond u w)) = getCurrentSettings w
        /\ listeners (snd (call respond u w)) = listeners w
        /\ delivered (snd (call respond u w)) = delivered w).
Proof.
  intros Hr. destruct (reachable_invariant w Hr) as [Hn _].
  rewrite call_fetch. split.
  - intros rust b' E. rewrite (fetch_success _ _ _ _ E). simpl.
    repeat split. eexists. split; [reflexivity|].
    intros l. now apply callsTo_each.
  - intros error b' E. rewrite (fetch_failure _ _ _ _ E). simpl.
    repeat split.
Qed.

Lemma initialize_cached (w : World number BackendState)
    (s : AppSettings number) :
  initialized w = true -> settings w = Some s ->
  initialize respond w = (inr s, w).
Proof. intros Hi Hs. unfold initialize. now rewrite Hi, Hs. Qed.

Lemma initialize_success (w : World number BackendState)
    (s : AppSettings number) :
  fst (initialize respond w) = inr s ->
  initialized (snd (initialize respond w)) = true
  /\ settings (snd (initialize respond w)) = Some s.
Proof.
  unfold initialize, invoke.
  destruct (initialized w) eqn:Hi; destruct (settings w) as [s0|] eqn:Hs;
    try (simpl; intros [= <-]; now split);
    destruct (respond (backend w) (init_settings number))
      as [[error|rust] b']; simpl; try discriminate;
    intros [= <-]; now split.
Qed.

(** X16. Once [initialize] has succeeded, calling it again returns the same
    settings and changes nothing: no command is sent and no listener is
    called. *)
Theorem initialize_twice (w : World number BackendState)
    (s : AppSettings number) :
  fst (initialize respond w) = inr s ->
  initialize respond (snd (initialize respond w))
  = (inr s, snd (initialize respond w)).
Proof.
  intros H. destruct (initialize_success w s H) as [Hi Hs].
  now apply initialize_cached.
Qed.

(** X17. With a backend that stores what it is given and answers with it,
    saving settings leaves the service holding exactly the settings
    saved, and returns them. *)
Theorem saved_settings_are_held (w : World number BackendState)
    (s : AppSettings number) (b' : BackendState) :
  respond (backend w) (save_settings number (convertToRust.settings s))
  = (inr (convertToRust.settings s), b') ->
  fst (saveSettings respond s w) = inr s
  /\ getCurrentSettings (snd (saveSettings respond s w)) = Some s.
Proof.
  intros E. unfold saveSettings.
  rewrite (fetch_success _ _ _ _ E). simpl.
  now rewrite settings_from_to.
Qed.

(** X18. In every world that a fresh service can reach, no listener is
    subscribed twice, a service that counts as initialized holds settings,
    and settings are held only after a command was sent to the backend. *)
Theorem reachable_worlds_are_coherent (w : World number BackendState) :
  reachable respond w ->
  NoDup (listeners w)
  /\ (initialized w = true -> exists s, getCurrentSettings w = Some s)
  /\ (forall s, getCurrentSettings w = Some s -> invoked w <> []).
Proof.
  intros Hr. destruct (reachable_invariant w Hr) as [Hn [Hi Hs]].
  split; [exact Hn|]. unfold getCurrentSettings. split.
  - intros H. specialize (Hi H).
    destruct (settings w) as [s|]; [now exists s|congruence].
  - intros s H. apply Hs. congruence.
Qed.

(** X19. Subscribing a listener that is not yet subscribed and then calling
    the function that [subscribe] returned restores the service; after
    unsubscribing, the listener is not among the listeners, whether it
    had been subscribed once or several times. *)
Theorem subscribe_then_unsubscribe (w : World number BackendState)
    (l : Listener) :
  ~ In l (listeners (unsubscribe l w))
  /\ In l (listeners (subscribe l w))
  /\ subscribe l (subscribe l w) = subscribe l w
  /\ (~ In l (listeners w) -> unsubscribe l (subscribe l w) = w).
Proof.
  split; [|split; [|split]].
  - simpl. intros H. apply filter_In in H as [_ H].
    now rewrite Nat.eqb_refl in H.
  - simpl. destruct (existsb (Nat.eqb l) (listeners w)) eqn:E.
    + now apply existsb_eqb_In.
    + apply in_or_app. right. now left.
  - unfold subscribe at 1. simpl.
    assert (H : existsb (Nat.eqb l) (listeners (subscribe l w)) = true).
    { apply existsb_eqb_In. simpl.
      destruct (existsb (Nat.eqb l) (listeners w)) eqn:E.
      - now apply existsb_eqb_In.
      - apply in_or_app. right. now left. }
    simpl in H. rewrite H. reflexivity.
  - intros Hn. destruct w as [i s ls b inv d]. unfold unsubscribe; simpl in *.
    f_equal.
    assert (E : existsb (Nat.eqb l) ls = false).
    { destruct (existsb (Nat.eqb l) ls) eqn:E; [|reflexivity].
      apply existsb_eqb_In in E. contradiction. }
    rewrite E, filter_app. simpl. rewrite Nat.eqb_refl. simpl.
    rewrite app_nil_r.
    clear E. induction ls as [|x r IH]; [reflexivity|].
    simpl. destruct (Nat.eqb_spec l x) as [->|Hne]; simpl.
    + exfalso. apply Hn. now left.
    + f_equal. apply IH. intros H. apply Hn. now right.
Qed.

End ServiceFacts.

Lemma listObjects_request_shape_witness :
  Js.endsWith "photos/" "/" = true.
Proof.
  destruct (listObjects_request_shape Scenario.pagedBackend
              Scenario.connection "bucket" (Some "/photos") (Some "/")
              (Some 1000%N) None [])
    as [request [E [_ [_ [Hp _]]]]].
  apply (f_equal snd) in E. vm_compute in E. injection E as <-.
  exact (proj2 (Hp "photos/" eq_refl)).
Defined.

Lemma change_notifies_each_listener_once_witness :
  fst (SettingsService.call Scenario.memoryBackend
         (SettingsService.SaveSettings Z Scenario.someSettings)
         (SettingsService.run Scenario.memoryBackend
            [SettingsService.Subscribe Z 1; SettingsService.Subscribe Z 1;
             SettingsService.Initialize Z]
            (SettingsService.fresh
               (Settings.convertToRust.settings Scenario.someSettings))))
  = inr (Settings.convertFromRust.settings
           (Settings.convertToRust.settings Scenario.someSettings)).
Proof.
  refine (proj1 (proj1 (change_notifies_each_listener_once Z _
    Scenario.memoryBackend _
    (SettingsService.SaveSettings Z Scenario.someSettings) _) _ _ eq_refl)).
  exists [SettingsService.Subscribe Z 1; SettingsService.Subscribe Z 1;
          SettingsService.Initialize Z].
  exists (Settings.convertToRust.settings Scenario.someSettings).
  reflexivity.
Defined.

Lemma initialize_twice_witness :
  SettingsService.initialize Scenario.memoryBackend
    (snd (SettingsService.initialize Scenario.memoryBackend
            (SettingsService.fresh
               (Settings.convertToRust.settings Scenario.someSettings))))
  = (inr Scenario.someSettings,
     snd (SettingsService.initialize Scenario.memoryBackend
            (SettingsService.fresh
               (Settings.convertToRust.settings Scenario.someSettings)))).
Proof.
  exact (initialize_twice Z _ Scenario.memoryBackend
           (SettingsService.fresh
              (Settings.convertToRust.settings Scenario.someSettings))
           Scenario.someSettings eq_refl).
Defined.

Lemma saved_settings_are_held_witness :
  SettingsService.getCurrentSettings
    (snd (SettingsService.saveSettings Scenario.memoryBackend
            Scenario.someSettings
            (SettingsService.fresh
               (Settings.convertToRust.settings Scenario.someSettings))))
  = Some Scenario.someSettings.
Proof.
  exact (proj2 (saved_settings_are_held Z _ Scenario.memoryBackend
                  (SettingsService.fresh
                     (Settings.convertToRust.settings Scenario.someSettings))
                  Scenario.someSettings _ eq_refl)).
Defined.

Lemma reachable_worlds_are_coherent_witness :
  NoDup
    (SettingsService.listeners
       (SettingsService.run Scenario.memoryBackend
          [SettingsService.Subscribe Z 1; SettingsService.Subscribe Z 1;
           SettingsService.Unsubscribe Z 2]
          (SettingsService.fresh
             (Settings.convertToRust.settings Scenario.someSettings)))).
Proof.
  refine (proj1 (reachable_worlds_are_coherent Z _ Scenario.memoryBackend _ _)).
  exists [SettingsService.Subscribe Z 1; SettingsService.Subscribe Z 1;
          SettingsService.Unsubscribe Z 2].
  exists (Settings.convertToRust.settings Scenario.someSettings).
  reflexivity.
Defined.

Lemma subscribe_then_unsubscribe_witness :
  SettingsService.unsubscribe 7
    (SettingsService.subscribe 7
       (SettingsService.fresh
          (Settings.convertToRust.settings Scenario.someSettings)))
  = @SettingsService.fresh Z _
      (Settings.convertToRust.settings Scenario.someSettings).
Proof.
  refine (proj2 (proj2 (proj2 (subscribe_then_unsubscribe Z _ _ 7))) _).
  simpl. intros [].
Defined.

(** ** The connection in use *)

Section ConnectionFacts.

Import Settings FileExplorer.

(** X20. The connection in use is taken from the configured ones: the
    first that is marked as default, or the first of all when none is
    marked; there is none only when none is configured. *)
Theorem activeConnection_choice (connections : list ConnectionConfig) :
  (activeConnection connections = None <-> connections = [])
  /\ forall connection,
      activeConnection connections = Some connection ->
      In connection connections
      /\ (existsb isDefault connections = true ->
          isDefault connection = true
          /\ exists before after,
              connections = (before ++ connection :: after)%list
              /\ forallb (fun c => negb (isDefault c)) before = true)
      /\ (existsb isDefault connections = false ->
          hd_error connections = Some connection).
Proof.
  unfold activeConnection. split.
  - destruct (find isDefault connections) as [d|] eqn:E.
    + split; [discriminate|]. intros ->. discriminate.
    + destruct connections; simpl; split; congruence.
  - intros connection.
    induction connections as [|c r IH]; [discriminate|].
    simpl. destruct (isDefault c) eqn:Hc.
    + intros [= <-]. split; [now left|]. split; [|discriminate].
      intros _. split; [exact Hc|]. now exists [], r.
    + simpl. destruct (find isDefault r) as [d|] eqn:E.
      * intros [= <-]. specialize (IH eq_refl) as [Hin [Hd _]].
        split; [now right|]. split.
        -- intros Hex. destruct (Hd Hex) as [Hdc [before [after [-> Hb]]]].
           split; [exact Hdc|]. exists (c :: before), after.
           split; [reflexivity|]. simpl. now rewrite Hc, Hb.
        -- intros Hex. exfalso.
           apply find_some in E as [Hind Hdd].
           assert (Ht : existsb isDefault r = true)
             by (apply existsb_exists; eauto).
           congruence.
      * intros [= <-]. split; [now left|]. split; [|reflexivity].
        intros Hex. exfalso. apply existsb_exists in Hex as [x [Hin Hx]].
        pose proof (find_none _ _ E x Hin). congruence.
Qed.

End ConnectionFacts.

Lemma activeConnection_choice_witness :
  In Scenario.connection [Scenario.connection].
Proof.
  exact (proj1 (proj2 (activeConnection_choice [Scenario.connection])
                  Scenario.connection eq_refl)).
Defined.
